(** * idealista_webscraper: extraction, normalisation and storage

    A shallow embedding of [src/data/normalizator.py] (class
    [NormalizarDataFrame]) and [src/data/io.py] ([save_df_to_parquet]),
    with the properties of the design document proved or refuted on it.

    Layout:
    - [text]: Python [str] as a list of Unicode code points;
    - [PyRuntime]: the tables of the Python runtime the code relies on
      (case mapping, decimal digits, white space, word characters);
    - [Re]: the fragment of [re] the patterns of the source use, as a
      backtracking matcher;
    - the three field extractors and the price normaliser;
    - data frames as objects in a heap, for [normalize_dataframe];
    - the parquet store of [io.py]. *)

From Stdlib Require Import String Ascii QArith.
From stdpp Require Import gmap list.

Set Warnings "-register-all".
Local Open Scope Z_scope.
Local Open Scope list_scope.

(** ** Text *)

(** A Python [str] is a sequence of code points. *)
Abbreviation text := (list N).

(** Decoder from the UTF-8 bytes of a string literal of this file to code
    points; [need] counts the continuation bytes still expected. *)
Fixpoint utf8 (bs : list N) (acc : N) (need : nat) : text :=
  match bs with
  | [] => []
  | b :: bs' =>
      match need with
      | O =>
          if (b <? 128)%N then b :: utf8 bs' 0%N O
          else if (b <? 224)%N then utf8 bs' (b - 192)%N 1%nat
          else if (b <? 240)%N then utf8 bs' (b - 224)%N 2%nat
          else utf8 bs' (b - 240)%N 3%nat
      | S n =>
          let acc' := (acc * 64 + (b - 128))%N in
          match n with
          | O => acc' :: utf8 bs' 0%N O
          | _ => utf8 bs' acc' n
          end
      end
  end.

Definition u (s : string) : text :=
  utf8 (map N_of_ascii (list_ascii_of_string s)) 0%N O.

Definition text_eqb (a b : text) : bool := bool_decide (a = b).

(** [starts_with w s]: [s.startswith(w)]. *)
Fixpoint starts_with (w s : text) : bool :=
  match w, s with
  | [], _ => true
  | _ :: _, [] => false
  | a :: w', b :: s' => (a =? b)%N && starts_with w' s'
  end.

(** [contains w s]: the Python test [w in s] on strings. *)
Fixpoint contains (w s : text) : bool :=
  starts_with w s || match s with [] => false | _ :: s' => contains w s' end.

(** [str_replace old new s]: [s.replace(old, new)] for a non-empty [old];
    occurrences are replaced from the left and do not overlap.  [skip]
    counts the characters of a replaced occurrence still to pass over. *)
Fixpoint str_replace_aux (old new : text) (skip : nat) (s : text) : text :=
  match s with
  | [] => []
  | c :: s' =>
      match skip with
      | S k => str_replace_aux old new k s'
      | O =>
          if starts_with old s
          then new ++ str_replace_aux old new (length old - 1)%nat s'
          else c :: str_replace_aux old new O s'
      end
  end.

Definition str_replace (old new s : text) : text :=
  str_replace_aux old new O s.

(** [sep.join(parts)] on a list of strings. *)
Fixpoint str_join (sep : text) (parts : list text) : text :=
  match parts with
  | [] => []
  | [p] => p
  | p :: rest => p ++ sep ++ str_join sep rest
  end.

(** ** The Python runtime *)

(** Floating point numbers: a finite double is represented by the rational
    it denotes; rounding to the nearest double is not modelled. *)
Inductive float64 :=
| FNaN
| FInf (negative : bool)
| FNum (q : Q).

(** What the code takes from the interpreter's Unicode database and from
    [float()].  The development is parametric in it; [latin1] below is the
    instance used to evaluate the code on concrete listings. *)
Class PyRuntime := {
  (** [str.lower] *)
  str_lower : text -> text;
  str_lower_nil : str_lower [] = [];
  (** value of a decimal digit (category Nd): what [\d] matches and [int]
      and [float] read *)
  decimal_digit : N -> option N;
  (** [str.isspace], what [\s] matches and [str.strip] removes *)
  is_space : N -> bool;
  (** [str.isalnum]; [\w] is this or an underscore *)
  is_alnum : N -> bool;
  (** [float(s)] on a string, [None] for [ValueError] *)
  float_of_str : text -> option float64;
  (** [sys.get_int_max_str_digits()]: the longest numeral [int] reads, in
      digits, leading zeros counted; 4300 unless the interpreter is set
      otherwise, 0 for no limit *)
  int_max_str_digits : nat
}.

Definition is_digit `{PyRuntime} (c : N) : bool :=
  match decimal_digit c with Some _ => true | None => false end.

(** A numeral of [n] digits is longer than [int] agrees to read. *)
Definition exceeds_cap `{PyRuntime} (n : nat) : bool :=
  (0 <? int_max_str_digits)%nat && (int_max_str_digits <? n)%nat.

(** [int(s)] on a string made of decimal digits only. [None] stands for
    [ValueError]: the empty string, a character that is not a digit, or
    more digits than the interpreter's limit. *)
Fixpoint digits_value `{PyRuntime} (acc : Z) (s : text) : option Z :=
  match s with
  | [] => Some acc
  | c :: s' =>
      match decimal_digit c with
      | Some d => digits_value (acc * 10 + Z.of_N d) s'
      | None => None
      end
  end.

Definition int_of_digits `{PyRuntime} (s : text) : option Z :=
  match s with
  | [] => None
  | _ => if exceeds_cap (length s) then None else digits_value 0 s
  end.

(** [s.strip()] *)
Fixpoint lstrip `{PyRuntime} (s : text) : text :=
  match s with
  | [] => []
  | c :: s' => if is_space c then lstrip s' else s
  end.

Definition str_strip `{PyRuntime} (s : text) : text :=
  rev (lstrip (rev (lstrip s))).

(** ** Regular expressions

    The constructs the patterns of [normalizator.py] use: literals, the
    classes [\d], [\s], [\w] and sets of them, concatenation, the greedy
    [?], [*], [+] and [{n}], and one capturing group. *)

Module Re.

Inductive cclass :=
| CDigit                      (* \d *)
| CSpace                      (* \s *)
| CWord                       (* \w *)
| CChar (c : N)
| COr (a b : cclass).         (* [ab] *)

Inductive regex :=
| Eps
| One (c : cclass)
| Cat (a b : regex)
| Opt (a : regex)             (* a? *)
| Star (a : regex)            (* a* *)
| Plus (a : regex)            (* a+ *)
| Times (n : nat) (a : regex) (* a{n} *)
| Group (a : regex).          (* (a), group 1 *)

Fixpoint in_class `{PyRuntime} (c : cclass) (x : N) : bool :=
  match c with
  | CDigit => is_digit x
  | CSpace => is_space x
  | CWord => is_alnum x || (x =? 95)%N
  | CChar y => (x =? y)%N
  | COr a b => in_class a x || in_class b x
  end.

(** A literal string, and a sequence of patterns. *)
Definition lit (w : text) : regex :=
  foldr (fun c r => Cat (One (CChar c)) r) Eps w.

Definition cat (rs : list regex) : regex := foldr Cat Eps rs.

(** The state of a match attempt is the text still to read and the text of
    group 1, if the group has been closed.  [K A] is what remains to be
    matched after a pattern, as a function of that state. *)
Definition K (A : Type) : Type := text -> option text -> option A.

(** Greedy iteration: one more round of [body] first, then the rest.  A
    round that reads nothing is not repeated, as in [re]. *)
Fixpoint star {A} (body : text -> option text -> K A -> option A)
    (fuel : nat) (s : text) (g : option text) (k : K A) : option A :=
  match fuel with
  | O => k s g
  | S fuel' =>
      match body s g (fun s' g' =>
              if (length s' <? length s)%nat then star body fuel' s' g' k
              else None) with
      | Some v => Some v
      | None => k s g
      end
  end.

(** [run r s g k]: match [r] at the start of [s], then [k]; alternatives
    are tried in the order of [re] (longest repetition first) and the first
    that lets [k] succeed wins. *)
Fixpoint run `{PyRuntime} {A} (r : regex) (s : text) (g : option text)
    (k : K A) : option A :=
  match r with
  | Eps => k s g
  | One c =>
      match s with
      | x :: s' => if in_class c x then k s' g else None
      | [] => None
      end
  | Cat a b => run a s g (fun s' g' => run b s' g' k)
  | Opt a =>
      match run a s g k with
      | Some v => Some v
      | None => k s g
      end
  | Star a => star (run a) (length s) s g k
  | Plus a => run a s g (fun s' g' => star (run a) (length s') s' g' k)
  | Times n a =>
      (fix times (n : nat) (s : text) (g : option text) : option A :=
         match n with
         | O => k s g
         | S n' => run a s g (times n')
         end) n s g
  | Group a =>
      run a s g (fun s' _ => k s' (Some (take (length s - length s') s)))
  end.

(** A match object, reduced to what the source asks of it: group 1. *)
Definition match_obj := option text.

Definition match_here `{PyRuntime} (r : regex) (s : text) : option match_obj :=
  run r s None (fun _ g => Some g).

(** [pattern.search(s)]: the first position, from the left, with a match. *)
Fixpoint search `{PyRuntime} (r : regex) (s : text) : option match_obj :=
  match match_here r s with
  | Some m => Some m
  | None =>
      match s with
      | [] => None
      | _ :: s' => search r s'
      end
  end.

End Re.

(** ** Python values, exceptions *)

(** The exceptions the modelled code can raise. *)
Inductive py_error :=
| KeyError (key : text)
| TypeError
| ValueError
| AttributeError
| IndexError
| OverflowError
| InvalidIndexError
| OSError.

Inductive result (A : Type) :=
| Ok (a : A)
| Err (e : py_error).
Arguments Ok {A} a.
Arguments Err {A} e.

Definition bind {A B} (m : result A) (f : A -> result B) : result B :=
  match m with
  | Ok a => f a
  | Err e => Err e
  end.

Notation "'let!' x ':=' m 'in' k" := (bind m (fun x => k))
  (at level 10, x name, m at level 100, k at level 200).

(** Run [f] over a list from the left; the first exception stops the loop. *)
Fixpoint mapM {A B} (f : A -> result B) (l : list A) : result (list B) :=
  match l with
  | [] => Ok []
  | x :: l' => let! y := f x in let! ys := mapM f l' in Ok (y :: ys)
  end.

(** The values found in the cells of a batch.  [VList] is a Python list,
    [VArray] a numpy array (what a list becomes once a batch has been read
    back from a parquet file), [VDict] a dict with string keys in insertion
    order. *)
Inductive value :=
| VNone
| VBool (b : bool)
| VInt (z : Z)
| VFloat (f : float64)
| VStr (s : text)
| VList (l : list value)
| VArray (l : list value)
| VDict (d : list (text * value)).

(** A dict: keys are unique, a later binding replaces the value of an
    earlier one and keeps its place. *)
Abbreviation dict := (list (text * value)).

Fixpoint dict_get (k : text) (d : dict) : option value :=
  match d with
  | [] => None
  | (k', v) :: d' => if text_eqb k k' then Some v else dict_get k d'
  end.

Fixpoint dict_set (k : text) (v : value) (d : dict) : dict :=
  match d with
  | [] => [(k, v)]
  | (k', v') :: d' =>
      if text_eqb k k' then (k, v) :: d' else (k', v') :: dict_set k v d'
  end.

(** [x is None] *)
Definition is_none (v : value) : bool :=
  match v with VNone => true | _ => false end.

(** [bool(v)].  An array of one element has the truth value of the
    element, a longer one has none ([ValueError]). *)
Fixpoint truthy (v : value) : result bool :=
  match v with
  | VNone => Ok false
  | VBool b => Ok b
  | VInt z => Ok (negb (z =? 0))
  | VFloat (FNum q) => Ok (negb (Qeq_bool q 0))
  | VFloat _ => Ok true
  | VStr s => Ok (negb (bool_decide (s = [])))
  | VList l => Ok (negb (bool_decide (length l = O)))
  | VDict d => Ok (negb (bool_decide (length d = O)))
  | VArray [] => Ok false
  | VArray [x] => truthy x
  | VArray _ => Err ValueError
  end.

(** [iter(v)]: the elements a [for] loop or [join] sees. *)
Definition py_iter (v : value) : result (list value) :=
  match v with
  | VList l | VArray l => Ok l
  | VStr s => Ok (map (fun c => VStr [c]) s)
  | VDict d => Ok (map (fun kv => VStr kv.1) d)
  | _ => Err TypeError
  end.

(** [a[i]] on a numpy array. *)
Definition array_item (l : list value) (i : nat) : result value :=
  match l !! i with
  | Some v => Ok v
  | None => Err IndexError
  end.

(** [int(m.group(1)) if m else None] *)
Definition int_group `{PyRuntime} (m : option Re.match_obj)
  : result (option Z) :=
  match m with
  | None => Ok None
  | Some None => Err TypeError
  | Some (Some w) =>
      match int_of_digits w with
      | Some z => Ok (Some z)
      | None => Err ValueError
      end
  end.

(** [bool(pattern.search(s))] *)
Definition found (m : option Re.match_obj) : bool :=
  match m with Some _ => true | None => false end.

Definition opt_int (o : option Z) : value :=
  match o with Some z => VInt z | None => VNone end.

Definition opt_str (o : option text) : value :=
  match o with Some s => VStr s | None => VNone end.

Definition opt_bool (o : option bool) : value :=
  match o with Some b => VBool b | None => VNone end.

(** ** Field extractors ([NormalizarDataFrame]) *)

Import Re.

Definition digit : regex := One CDigit.
Definition space : regex := One CSpace.
Definition word : regex := One CWord.

(** *** [extract_info_features] *)

Module Info.
(** The patterns of the method, under the names it gives them. *)
(* r"(\d+)\s*m²" *)
Definition superficie_pattern :=
  cat [Group (Plus digit); Star space; lit (u "m²")].
(* r"(\d+)\s*hab" *)
Definition habitaciones_pattern :=
  cat [Group (Plus digit); Star space; lit (u "hab")].
Definition garaje_incluido_pattern := lit (u "garaje incluido").
Definition con_garaje_pattern := lit (u "con garaje").
(* r"planta (\d+)" *)
Definition planta_pattern :=
  cat [lit (u "planta "); Group (Plus digit)].
Definition con_ascensor_pattern := lit (u "con ascensor").
Definition sin_ascensor_pattern := lit (u "sin ascensor").
End Info.

(** The dict the method returns, one field per key. *)
Record InfoFeatures := {
  superficie_m2 : option Z;
  habitaciones : option Z;
  garaje : bool;
  planta : option Z;
  ascensor : option bool
}.

Definition extract_info_features `{PyRuntime} (info : list text)
  : result InfoFeatures :=
  let info := str_join (u " ") info in
  let info := str_lower info in
  let superficie := search Info.superficie_pattern info in
  let habitaciones := search Info.habitaciones_pattern info in
  let garaje :=
    if found (search Info.garaje_incluido_pattern info)
       || found (search Info.con_garaje_pattern info)
    then true else false in
  let planta := search Info.planta_pattern info in
  let ascensor :=
    if found (search Info.con_ascensor_pattern info) then Some true
    else if found (search Info.sin_ascensor_pattern info) then Some false
    else None in
  let! v_superficie := int_group superficie in
  let! v_habitaciones := int_group habitaciones in
  let! v_planta := int_group planta in
  Ok {| superficie_m2 := v_superficie;
        habitaciones := v_habitaciones;
        garaje := garaje;
        planta := v_planta;
        ascensor := ascensor |}.

Definition info_features_dict (r : InfoFeatures) : dict :=
  [ (u "superficie_m2", opt_int (superficie_m2 r));
    (u "habitaciones", opt_int (habitaciones r));
    (u "garaje", VBool (garaje r));
    (u "planta", opt_int (planta r));
    (u "ascensor", opt_bool (ascensor r)) ].

(** *** [filter_energy_data] and [extract_certificado_energetico] *)

Definition energy_keys : list text := [u "Consumo:"; u "Emisiones:"].

(** [item.items()] *)
Definition dict_items (item : value) : result dict :=
  match item with
  | VDict d => Ok d
  | _ => Err AttributeError
  end.

(** The dict comprehension of [filter_energy_data]. *)
Definition filter_item (d : dict) : dict :=
  foldl (fun acc kv =>
           if bool_decide (kv.1 ∈ energy_keys) && negb (is_none kv.2)
           then dict_set kv.1 kv.2 acc else acc)
        [] d.

Definition filter_energy_data (data : value) : result (list dict) :=
  let! items := py_iter data in
  mapM (fun item => let! d := dict_items item in Ok (filter_item d)) items.

(** The two assignments guarded by [isinstance(x, np.ndarray)]: [cur] holds
    the value and the icon found so far for the label [key]. *)
Definition energy_update (key : text) (item : dict) (cur : value * value)
  : result (value * value) :=
  match dict_get key item with
  | Some x =>
      if is_none x then Ok cur
      else
        match x with
        | VArray a =>
            let! x0 := array_item a 0 in
            let! t0 := truthy x0 in
            let valor := if t0 then x0 else cur.1 in
            let! x1 := array_item a 1 in
            let! t1 := truthy x1 in
            let icono := if t1 then x1 else cur.2 in
            Ok (valor, icono)
        | _ => Ok cur
        end
  | None => Ok cur
  end.

Fixpoint energy_loop (certificado : list dict)
    (consumo emisiones : value * value)
  : result ((value * value) * (value * value)) :=
  match certificado with
  | [] => Ok (consumo, emisiones)
  | item :: rest =>
      let! consumo' := energy_update (u "Consumo:") item consumo in
      let! emisiones' := energy_update (u "Emisiones:") item emisiones in
      energy_loop rest consumo' emisiones'
  end.

Definition extract_certificado_energetico (data : value) : result dict :=
  let! certificado := filter_energy_data data in
  let! vars := energy_loop certificado (VNone, VNone) (VNone, VNone) in
  let consumo := vars.1 in
  let emisiones := vars.2 in
  Ok [ (u "consumo_energetico_valor", consumo.1);
       (u "consumo_energetico_icono", consumo.2);
       (u "emisiones_valor", emisiones.1);
       (u "emisiones_icono", emisiones.2) ].

(** *** [extract_caracteristicas_basicas] *)

Module Basicas.
(* r"(\d+)\s*m² construidos" *)
Definition superficie_pattern :=
  cat [Group (Plus digit); Star space; lit (u "m² construidos")].
(* r"(\d+)\s*m² útiles" *)
Definition superficie_util_pattern :=
  cat [Group (Plus digit); Star space; lit (u "m² útiles")].
(* r"(\d+)\s*habitaci?" *)
Definition habitaciones_pattern :=
  cat [Group (Plus digit); Star space; lit (u "habitac");
       Opt (One (CChar 105))].
(* r"(\d+)\s*baños?" *)
Definition banos_pattern :=
  cat [Group (Plus digit); Star space; lit (u "baño");
       Opt (One (CChar 115))].
(* r"parcela de (\d+)\s*m²" *)
Definition parcela_pattern :=
  cat [lit (u "parcela de "); Group (Plus digit); Star space; lit (u "m²")].
Definition terraza_pattern := lit (u "terraza").
Definition balcon_pattern := lit (u "balcón").
Definition garaje_pattern := lit (u "plaza de garaje incluida en el precio").
Definition estado_pattern := lit (u "segunda mano/buen estado").
Definition armarios_pattern := lit (u "armarios empotrados").
(* "orientación ", then as group 1 a run of \w followed by any number of
   ", " and a run of \w *)
Definition orientacion_pattern :=
  cat [lit (u "orientación ");
       Group (Cat (Plus word) (Star (cat [lit (u ", "); Plus word])))].
Definition cocina_pattern := lit (u "cocina equipada").
Definition casas_amueblada_pattern := lit (u "casa sin amueblar").
Definition amueblado_pattern := lit (u "amueblado").
(* r"calefacción\s*([\w\s:]+)" *)
Definition calefaccion_pattern :=
  cat [lit (u "calefacción"); Star space;
       Group (Plus (One (COr CWord (COr CSpace (CChar 58)))))].
Definition trastero_pattern := lit (u "trastero").
(* r"construido en (\d{4})" *)
Definition construccion_pattern :=
  cat [lit (u "construido en "); Group (Times 4 digit)].
(* r"(\d+)\s*plantas" *)
Definition plantas_pattern :=
  cat [Group (Plus digit); Star space; lit (u "plantas")].
End Basicas.

Record CaracteristicasBasicas := {
  caracteristicas_basicas_superficie_m2 : option Z;
  superficie_util_m2 : option Z;
  caracteristicas_basicas_habitaciones : option Z;
  caracteristicas_basicas_banos : option Z;
  parcela_m2 : option Z;
  terraza : bool;
  balcon : bool;
  garaje_incluido : bool;
  segunda_mano_buen_estado : bool;
  armarios_empotrados : bool;
  orientacion : option text;
  cocina_equipada : bool;
  amueblada : bool;
  calefaccion : option text;
  trastero : bool;
  construccion : option Z;
  plantas : option Z
}.

(** [m.group(1) if m else None] *)
Definition str_group (m : option match_obj) : option text :=
  match m with
  | Some (Some w) => Some w
  | _ => None
  end.

(** [m.group(1).strip() if m else None]; [strip] on a group that did not
    take part in the match is an [AttributeError]. *)
Definition strip_group `{PyRuntime} (m : option match_obj)
  : result (option text) :=
  match m with
  | None => Ok None
  | Some None => Err AttributeError
  | Some (Some w) => Ok (Some (str_strip w))
  end.

Definition extract_caracteristicas_basicas `{PyRuntime}
    (caracteristicas_basicas : list text) : result CaracteristicasBasicas :=
  let t := str_lower (str_join (u " ") caracteristicas_basicas) in
  let superficie := search Basicas.superficie_pattern t in
  let superficie_util := search Basicas.superficie_util_pattern t in
  let habitaciones := search Basicas.habitaciones_pattern t in
  let banos := search Basicas.banos_pattern t in
  let parcela := search Basicas.parcela_pattern t in
  let terraza := found (search Basicas.terraza_pattern t) in
  let balcon := found (search Basicas.balcon_pattern t) in
  let garaje := found (search Basicas.garaje_pattern t) in
  let estado := found (search Basicas.estado_pattern t) in
  let armarios := found (search Basicas.armarios_pattern t) in
  let orientacion := search Basicas.orientacion_pattern t in
  let cocina := found (search Basicas.cocina_pattern t) in
  let amueblada :=
    found (search Basicas.casas_amueblada_pattern t)
    || found (search Basicas.amueblado_pattern t) in
  let calefaccion := search Basicas.calefaccion_pattern t in
  let trastero := found (search Basicas.trastero_pattern t) in
  let construccion := search Basicas.construccion_pattern t in
  let plantas := search Basicas.plantas_pattern t in
  let! v_superficie := int_group superficie in
  let! v_superficie_util := int_group superficie_util in
  let! v_habitaciones := int_group habitaciones in
  let! v_banos := int_group banos in
  let! v_parcela := int_group parcela in
  let! v_calefaccion := strip_group calefaccion in
  let! v_construccion := int_group construccion in
  let! v_plantas := int_group plantas in
  Ok {| caracteristicas_basicas_superficie_m2 := v_superficie;
        superficie_util_m2 := v_superficie_util;
        caracteristicas_basicas_habitaciones := v_habitaciones;
        caracteristicas_basicas_banos := v_banos;
        parcela_m2 := v_parcela;
        terraza := terraza;
        balcon := balcon;
        garaje_incluido := garaje;
        segunda_mano_buen_estado := estado;
        armarios_empotrados := armarios;
        orientacion := str_group orientacion;
        cocina_equipada := cocina;
        amueblada := amueblada;
        calefaccion := v_calefaccion;
        trastero := trastero;
        construccion := v_construccion;
        plantas := v_plantas |}.

Definition caracteristicas_basicas_dict (r : CaracteristicasBasicas) : dict :=
  [ (u "caracteristicas_basicas_superficie_m2",
     opt_int (caracteristicas_basicas_superficie_m2 r));
    (u "superficie_util_m2", opt_int (superficie_util_m2 r));
    (u "caracteristicas_basicas_habitaciones",
     opt_int (caracteristicas_basicas_habitaciones r));
    (u "caracteristicas_basicas_banos",
     opt_int (caracteristicas_basicas_banos r));
    (u "parcela_m2", opt_int (parcela_m2 r));
    (u "terraza", VBool (terraza r));
    (u "balcon", VBool (balcon r));
    (u "garaje_incluido", VBool (garaje_incluido r));
    (u "segunda_mano_buen_estado", VBool (segunda_mano_buen_estado r));
    (u "armarios_empotrados", VBool (armarios_empotrados r));
    (u "orientacion", opt_str (orientacion r));
    (u "cocina_equipada", VBool (cocina_equipada r));
    (u "amueblada", VBool (amueblada r));
    (u "calefaccion", opt_str (calefaccion r));
    (u "trastero", VBool (trastero r));
    (u "construccion", opt_int (construccion r));
    (u "plantas", opt_int (plantas r)) ].

(** ** A runtime for Western European text

    Python's tables restricted to Basic Latin and Latin-1 Supplement
    (U+0000 to U+00FF), which hold the Spanish alphabet; code points above
    are taken to have no case, digit value, space or word property.
    [float] reads plain decimal numerals, and [int] has the limit of 4300
    digits an interpreter starts with. *)

Module Latin1.

Definition lower_char (c : N) : N :=
  if ((65 <=? c) && (c <=? 90))%N then (c + 32)%N
  else if ((192 <=? c) && (c <=? 222) && negb (c =? 215))%N then (c + 32)%N
  else c.

Definition digit_value (c : N) : option N :=
  if ((48 <=? c) && (c <=? 57))%N then Some (c - 48)%N else None.

Definition isspace (c : N) : bool :=
  (((9 <=? c) && (c <=? 13)) || ((28 <=? c) && (c <=? 32))
   || (c =? 133) || (c =? 160))%N.

Definition isalnum (c : N) : bool :=
  (((48 <=? c) && (c <=? 57)) || ((65 <=? c) && (c <=? 90))
   || ((97 <=? c) && (c <=? 122))
   || (c =? 170) || (c =? 178) || (c =? 179) || (c =? 181)
   || (c =? 185) || (c =? 186) || ((188 <=? c) && (c <=? 190))
   || ((192 <=? c) && (c <=? 255) && negb (c =? 215) && negb (c =? 247)))%N.

Fixpoint strip_spaces (s : text) : text :=
  match s with
  | [] => []
  | c :: s' => if isspace c then strip_spaces s' else s
  end.

(** Value and number of digits of a run of digits. *)
Fixpoint read_digits (acc : Z) (n : nat) (s : text) : option (Z * nat) :=
  match s with
  | [] => Some (acc, n)
  | c :: s' =>
      match digit_value c with
      | Some d => read_digits (acc * 10 + Z.of_N d) (S n) s'
      | None => None
      end
  end.

(** The text before and after the first full stop. *)
Fixpoint split_point (s : text) : text * text :=
  match s with
  | [] => ([], [])
  | c :: s' =>
      if (c =? 46)%N then ([], s')
      else let '(a, b) := split_point s' in (c :: a, b)
  end.

(** [digits], [digits.], [digits.digits] or [.digits], with an optional
    sign and surrounding white space. *)
Definition parse_float (s : text) : option float64 :=
  let s := rev (strip_spaces (rev (strip_spaces s))) in
  let '(neg, s) :=
    match s with
    | 45%N :: s' => (true, s')
    | 43%N :: s' => (false, s')
    | _ => (false, s)
    end in
  let '(ip, fp) := split_point s in
  match ip ++ fp with
  | [] => None
  | _ =>
      match read_digits 0 O (ip ++ fp) with
      | Some (m, _) =>
          let q := Qmake m (Pos.pow 10 (Pos.of_nat (length fp))) in
          let q := match fp with [] => inject_Z m | _ => q end in
          Some (FNum (if neg : bool then Qopp q else q))
      | None => None
      end
  end.

#[export] Instance latin1 : PyRuntime := {|
  str_lower := map lower_char;
  str_lower_nil := eq_refl;
  decimal_digit := digit_value;
  is_space := isspace;
  is_alnum := isalnum;
  float_of_str := parse_float;
  int_max_str_digits := 4300
|}.

End Latin1.

(** ** Data frames *)

(** A batch: its column labels and its rows, each row with one cell per
    column.  The row index is left out: every frame [normalize_dataframe]
    builds carries the index of its input, so rows correspond by position.
    Cells keep the Python object they were built from.  A label stands
    for the first column that bears it; frames in which the labels the
    code names occur twice are not modelled. *)
Record DataFrame := {
  columns : list text;
  rows : list (list value)
}.

Definition nan : value := VFloat FNaN.

(** Position of the first column with a label. *)
Fixpoint col_index (name : text) (cols : list text) : option nat :=
  match cols with
  | [] => None
  | c :: cols' =>
      if text_eqb name c then Some O else S <$> col_index name cols'
  end.

Definition cell_at (i : nat) (row : list value) : value := default nan (row !! i).

(** [df[name]]: the cells of a column, [KeyError] without it. *)
Definition get_column (name : text) (df : DataFrame) : result (list value) :=
  match col_index name (columns df) with
  | Some i => Ok (map (cell_at i) (rows df))
  | None => Err (KeyError name)
  end.

(** [series.apply(lambda x: pd.Series(f(x)))] on the column [name]: one row
    per dict, the keys as columns.  On a column without rows pandas does not
    call [f] and gives the empty column back, under its own label. *)
Definition apply_expand (f : value -> result dict) (name : text)
    (col : list value) : result DataFrame :=
  match col with
  | [] => Ok {| columns := [name]; rows := [] |}
  | _ =>
      let! ds := mapM f col in
      let keys := match ds with d :: _ => map fst d | [] => [] end in
      Ok {| columns := keys;
            rows := map (fun d => map (fun k => default nan (dict_get k d)) keys)
                        ds |}
  end.

(** The cells of a row at the columns whose label passes [keep]. *)
Fixpoint select_cells (keep : text -> bool) (cols : list text)
    (row : list value) : list value :=
  match cols with
  | [] => []
  | c :: cols' =>
      let rest := select_cells keep cols' (drop 1 row) in
      if keep c then cell_at O row :: rest else rest
  end.

(** [df.drop(columns=names)]: a new frame; [KeyError] for a label that is
    not there. *)
Definition drop_columns (names : list text) (df : DataFrame)
  : result DataFrame :=
  match List.find (fun n => negb (bool_decide (n ∈ columns df))) names with
  | Some n => Err (KeyError n)
  | None =>
      let keep c := negb (bool_decide (c ∈ names)) in
      Ok {| columns := List.filter keep (columns df);
            rows := map (select_cells keep (columns df)) (rows df) |}
  end.

(** [pd.concat([a, b], axis=1)] of frames with one index: the columns of
    [b] to the right of those of [a]. *)
Definition concat_columns (a b : DataFrame) : DataFrame :=
  {| columns := columns a ++ columns b;
     rows := zip_with app (rows a) (rows b) |}.

(** [df.rename(columns=mapping)] *)
Definition rename_columns (mapping : list (text * text)) (df : DataFrame)
  : DataFrame :=
  let rename c :=
    match List.find (fun kv => text_eqb c kv.1) mapping with
    | Some kv => kv.2
    | None => c
    end in
  {| columns := map rename (columns df); rows := rows df |}.

(** [df[name] = col]: the column is replaced where it is, or added on the
    right. *)
Definition set_column (name : text) (col : list value) (df : DataFrame)
  : DataFrame :=
  match col_index name (columns df) with
  | Some i =>
      {| columns := columns df;
         rows := zip_with (fun row v => <[i := v]> row) (rows df) col |}
  | None =>
      {| columns := columns df ++ [name];
         rows := zip_with (fun row v => row ++ [v]) (rows df) col |}
  end.

(** ** [normalizar_precios] *)

(** The [.str] accessor exists on columns of strings, of mixed objects
    and of nothing but missing values; a column of numbers, or of booleans,
    has none, with or without missing values. *)
Definition numeric_column (col : list value) : bool :=
  (forallb (fun v => match v with VBool _ | VNone => true | _ => false end)
           col
   && existsb (fun v => match v with VBool _ => true | _ => false end) col)
  || (forallb (fun v => match v with
                        | VInt _ | VFloat _ | VNone => true
                        | _ => false
                        end) col
      && existsb (fun v => match v with
                           | VInt _ | VFloat _ => true
                           | _ => false
                           end) col).

Definition str_accessor (col : list value) : result (list value) :=
  if numeric_column col then Err AttributeError else Ok col.

(** [.str.replace(old, new, regex=False)]: a cell that is not a string
    becomes NaN. *)
Definition cell_replace (old new : text) (v : value) : value :=
  match v with
  | VStr s => VStr (str_replace old new s)
  | _ => nan
  end.

(** [.str.extract(pattern)] with one group: the group of the first match,
    NaN without a match. *)
Definition cell_extract `{PyRuntime} (r : regex) (v : value) : value :=
  match v with
  | VStr s =>
      match search r s with
      | Some (Some w) => VStr w
      | _ => nan
      end
  | _ => nan
  end.

Definition int64_max : Z := 2 ^ 63 - 1.

(** [.astype("int64")] on the extracted cell: NaN cannot be cast
    ([ValueError]), a numeral beyond the limit of [int] is not read
    ([ValueError]), an integer beyond 64 bits does not fit
    ([OverflowError]). *)
Definition cell_int64 `{PyRuntime} (v : value) : result value :=
  match v with
  | VStr w =>
      match int_of_digits w with
      | Some z => if z <=? int64_max then Ok (VInt z) else Err OverflowError
      | None => Err ValueError
      end
  | _ => Err ValueError
  end.

(** The number a numeral [digits] or [digits.digits] denotes. *)
Fixpoint decimal_value `{PyRuntime} (acc : Z) (s : text) : option Q :=
  match s with
  | [] => Some (inject_Z acc)
  | c :: s' =>
      if (c =? 46)%N then
        match s' with
        | [] => Some (inject_Z acc)
        | _ =>
            match digits_value acc s' with
            | Some m => Some (Qmake m (Pos.pow 10 (Pos.of_nat (length s'))))
            | None => None
            end
        end
      else
        match decimal_digit c with
        | Some d => decimal_value (acc * 10 + Z.of_N d) s'
        | None => None
        end
  end.

(** [.astype("float64")] on the extracted cell: NaN stays NaN. *)
Definition cell_float64 `{PyRuntime} (v : value) : result value :=
  match v with
  | VStr w =>
      match decimal_value 0 w with
      | Some q => Ok (VFloat (FNum q))
      | None => Err ValueError
      end
  | _ => Ok nan
  end.

(** [.astype("float64")] on a cell of the [price] column. *)
Definition price_float64 `{PyRuntime} (v : value) : result float64 :=
  match v with
  | VNone => Ok FNaN
  | VBool b => Ok (FNum (if b then 1 else 0)%Q)
  | VInt z => Ok (FNum (inject_Z z))
  | VFloat f => Ok f
  | VStr s =>
      match float_of_str s with
      | Some f => Ok f
      | None => Err ValueError
      end
  | _ => Err TypeError
  end.

Definition float_mul (f : float64) (q : Q) : float64 :=
  match f with
  | FNum x => FNum (x * q)
  | _ => f
  end.

(* group 1 is a run of \d *)
Definition precio_inmueble_pattern : regex :=
  Group (Plus digit).
(* group 1 is a run of \d, an optional full stop and any number of \d *)
Definition precio_m2_pattern : regex :=
  Group (cat [Plus digit; Opt (One (CChar 46)); Star digit]).

(** The three columns [assign] computes, in the order of its arguments. *)
Definition precio_inmueble_column `{PyRuntime} (x : DataFrame)
  : result (list value) :=
  let! col := get_column (u "precio_inmueble") x in
  let! col := str_accessor col in
  mapM (fun v => cell_int64
                   (cell_extract precio_inmueble_pattern
                      (cell_replace (u ".") (u "") v))) col.

Definition price_column `{PyRuntime} (x : DataFrame) : result (list value) :=
  let! col := get_column (u "price") x in
  mapM (fun v => let! f := price_float64 v in
                 Ok (VFloat (float_mul f 1000))) col.

Definition precio_m2_column `{PyRuntime} (x : DataFrame)
  : result (list value) :=
  let! col := get_column (u "precio_m2") x in
  let! col := str_accessor col in
  mapM (fun v => cell_float64
                   (cell_extract precio_m2_pattern
                      (cell_replace (u ",") (u ".") v))) col.

Definition normalizar_precios `{PyRuntime} (df : DataFrame)
  : result DataFrame :=
  let! c1 := precio_inmueble_column df in
  let x := set_column (u "precio_inmueble") c1 df in
  let! c2 := price_column x in
  let x := set_column (u "price") c2 x in
  let! c3 := precio_m2_column x in
  Ok (set_column (u "precio_m2") c3 x).

(** ** Objects

    Data frames are objects: [rename(..., inplace=True)] changes the frame
    it is called on, the other methods build a new one.  The heap holds the
    frames; a reference is a position in it, and a new object goes to the
    end. *)

Abbreviation ref := nat.
Abbreviation heap := (list DataFrame).

(** A computation reads and changes the heap and returns or raises; what it
    did to the heap stays done when it raises. *)
Definition M (A : Type) : Type := heap -> result A * heap.

Definition ret {A} (a : A) : M A := fun h => (Ok a, h).

Definition bindM {A B} (m : M A) (f : A -> M B) : M B :=
  fun h =>
    match m h with
    | (Ok a, h') => f a h'
    | (Err e, h') => (Err e, h')
    end.

Notation "'do!' x ':=' m 'in' k" := (bindM m (fun x => k))
  (at level 10, x name, m at level 100, k at level 200).

Definition lift {A} (r : result A) : M A := fun h => (r, h).

(** A new object. *)
Definition alloc (df : DataFrame) : M ref :=
  fun h => (Ok (length h), h ++ [df]).

(** The frame behind a reference. *)
Definition load (l : ref) : M DataFrame :=
  fun h =>
    match h !! l with
    | Some df => (Ok df, h)
    | None => (Err AttributeError, h)
    end.

(** Update in place. *)
Definition store (l : ref) (df : DataFrame) : M unit :=
  fun h => (Ok tt, <[l := df]> h).

(** The methods of pandas the class calls, on references. *)
Definition df_getitem (l : ref) (name : text) : M (list value) :=
  do! df := load l in lift (get_column name df).

Definition series_apply (f : value -> result dict) (name : text)
    (col : list value) : M ref :=
  do! df := lift (apply_expand f name col) in alloc df.

Definition df_drop (l : ref) (names : list text) : M ref :=
  do! df := load l in
  do! df' := lift (drop_columns names df) in
  alloc df'.

Fixpoint loadM (ls : list ref) : M (list DataFrame) :=
  match ls with
  | [] => ret []
  | l :: ls' =>
      do! df := load l in do! dfs := loadM ls' in ret (df :: dfs)
  end.

Definition pd_concat_axis1 (ls : list ref) : M ref :=
  do! dfs := loadM ls in
  match dfs with
  | [] => lift (Err ValueError)
  | df :: rest => alloc (foldl concat_columns df rest)
  end.

Definition df_rename_inplace (l : ref) (mapping : list (text * text))
  : M unit :=
  do! df := load l in store l (rename_columns mapping df).

(** [df.assign(...)] works on a copy of [df]. *)
Definition normalizar_precios_obj `{PyRuntime} (l : ref) : M ref :=
  do! df := load l in
  do! df' := lift (normalizar_precios df) in
  alloc df'.

(** The cell of a composite column as the extractor's argument. *)
Definition str_list (x : value) : result (list text) :=
  let! items := py_iter x in
  mapM (fun v => match v with VStr s => Ok s | _ => Err TypeError end) items.

Definition info_features_of `{PyRuntime} (x : value) : result dict :=
  let! info := str_list x in
  let! r := extract_info_features info in
  Ok (info_features_dict r).

Definition caracteristicas_basicas_of `{PyRuntime} (x : value) : result dict :=
  let! l := str_list x in
  let! r := extract_caracteristicas_basicas l in
  Ok (caracteristicas_basicas_dict r).

(** An instance of [NormalizarDataFrame]: its attribute. *)
Record NormalizarDataFrame := { dataframe : ref }.

Definition raw_columns : list text :=
  [u "info_features"; u "certificado_energetico"; u "caracteristicas_basicas"].

Definition price_headers : list (text * text) :=
  [ (u "Precio del inmueble:", u "precio_inmueble");
    (u "Precio por m²:", u "precio_m2") ].

Definition normalize_dataframe `{PyRuntime} (self : NormalizarDataFrame)
  : M ref :=
  do! c := df_getitem (dataframe self) (u "info_features") in
  do! df_info_features :=
    series_apply info_features_of (u "info_features") c in
  do! c := df_getitem (dataframe self) (u "certificado_energetico") in
  do! df_certificado_energetico :=
    series_apply extract_certificado_energetico
      (u "certificado_energetico") c in
  do! c := df_getitem (dataframe self) (u "caracteristicas_basicas") in
  do! df_caracteristicas_basicas :=
    series_apply caracteristicas_basicas_of (u "caracteristicas_basicas") c in
  do! dropped := df_drop (dataframe self) raw_columns in
  do! dataframe_normalizado :=
    pd_concat_axis1 [dropped; df_info_features; df_certificado_energetico;
                     df_caracteristicas_basicas] in
  do! _ := df_rename_inplace dataframe_normalizado price_headers in
  do! dataframe_normalizado := normalizar_precios_obj dataframe_normalizado in
  ret dataframe_normalizado.

(** What [normalize_dataframe] computes from the frame of its input alone:
    the same steps on frames as values. *)
Definition normalized_batch `{PyRuntime} (d : DataFrame) : result DataFrame :=
  let! c1 := get_column (u "info_features") d in
  let! f1 := apply_expand info_features_of (u "info_features") c1 in
  let! c2 := get_column (u "certificado_energetico") d in
  let! f2 := apply_expand extract_certificado_energetico
               (u "certificado_energetico") c2 in
  let! c3 := get_column (u "caracteristicas_basicas") d in
  let! f3 := apply_expand caracteristicas_basicas_of
               (u "caracteristicas_basicas") c3 in
  let! d0 := drop_columns raw_columns d in
  normalizar_precios
    (rename_columns price_headers (foldl concat_columns d0 [f1; f2; f3])).

(** What a caller sees of an outcome in a heap: the frame behind the
    reference that was returned, or the exception. *)
Definition observe (r : result ref) (h : heap) : option (result DataFrame) :=
  match r with
  | Ok l => Ok <$> h !! l
  | Err e => Some (Err e)
  end.

(** ** The parquet store ([io.py]) *)

(** [s.endswith(w)] *)
Definition ends_with (w s : text) : bool := starts_with (rev w) (rev s).

(** [os.path.join(a, b)] (POSIX). *)
Definition os_path_join (a b : text) : text :=
  if starts_with (u "/") b then b
  else if bool_decide (a = []) || ends_with (u "/") a then a ++ b
  else a ++ u "/" ++ b.

(** The row of a frame with columns [from], laid out on the columns [to];
    NaN where [from] has no such column. *)
Definition reindex_row (from to : list text) (row : list value) : list value :=
  map (fun c => match col_index c from with
                | Some i => cell_at i row
                | None => nan
                end) to.

(** [pd.concat([a, b])]: the rows of [b] under the rows of [a], on the
    union of the columns.  Frames with the same columns are stacked as they
    are; otherwise labels have to be unique in each frame. *)
Definition concat_rows (a b : DataFrame) : result DataFrame :=
  if bool_decide (columns a = columns b) then
    Ok {| columns := columns a; rows := rows a ++ rows b |}
  else if bool_decide (NoDup (columns a)) && bool_decide (NoDup (columns b))
  then
    let cols :=
      columns a
      ++ List.filter (fun c => negb (bool_decide (c ∈ columns a))) (columns b) in
    Ok {| columns := cols;
          rows := map (reindex_row (columns a) cols) (rows a)
                  ++ map (reindex_row (columns b) cols) (rows b) |}
  else Err InvalidIndexError.

(** The operating system and the parquet library, as far as the store
    depends on them: whether a call fails.  [None] is success.  Directories
    are not part of the state: whether one can be made or written to is
    for the storage to say. *)
Class Storage := {
  (** [os.makedirs(path, exist_ok=True)] *)
  makedirs_error : text -> option py_error;
  (** [df.to_parquet(path)]: the directory is missing or not writable, or
      the frame has no parquet encoding *)
  write_error : text -> DataFrame -> option py_error;
  (** [pd.read_parquet(path)] *)
  read_error : text -> option py_error
}.

(** The files: for every path that exists, the frame [read_parquet] gives
    there.  A file holds the frame that was written to it. *)
Abbreviation files := (gmap text DataFrame).

Definition os_path_exists (p : text) (fs : files) : bool :=
  bool_decide (is_Some (fs !! p)).

Definition os_makedirs `{Storage} (p : text) (fs : files) : result files :=
  match makedirs_error p with
  | Some e => Err e
  | None => Ok fs
  end.

Definition to_parquet `{Storage} (df : DataFrame) (p : text) (fs : files)
  : result files :=
  match write_error p df with
  | Some e => Err e
  | None => Ok (<[p := df]> fs)
  end.

Definition read_parquet `{Storage} (p : text) (fs : files)
  : result DataFrame :=
  match read_error p with
  | Some e => Err e
  | None =>
      match fs !! p with
      | Some df => Ok df
      | None => Err OSError
      end
  end.

(** The name with the extension, as the function settles it. *)
Definition parquet_name (name : text) : text :=
  if negb (contains (u ".parquet") name) then name ++ u ".parquet" else name.

Definition save_df_to_parquet `{Storage} (dataframe_to_save : DataFrame)
    (dest_path name : text) (replace : bool) (fs : files) : result files :=
  let name := parquet_name name in
  let file_path := os_path_join dest_path name in
  if os_path_exists file_path fs then
    if replace then
      let! existing_df := read_parquet file_path fs in
      let! updated_df := concat_rows existing_df dataframe_to_save in
      to_parquet updated_df file_path fs
    else
      to_parquet dataframe_to_save file_path fs
  else
    let! fs := os_makedirs dest_path fs in
    to_parquet dataframe_to_save file_path fs.

(** A storage on which nothing fails. *)
Definition reliable : Storage := {|
  makedirs_error := fun _ => None;
  write_error := fun _ _ => None;
  read_error := fun _ => None
|}.

(** ** What a pattern matches

    [matches r s g s' g']: [r] reads a prefix of [s] and leaves [s'], and
    group 1 goes from [g] to [g'].  The matcher [run] only ever follows
    such steps ([run_matches] below). *)
Inductive matches `{PyRuntime}
  : regex -> text -> option text -> text -> option text -> Prop :=
| m_eps s g : matches Eps s g s g
| m_one c x s g : in_class c x = true -> matches (One c) (x :: s) g s g
| m_cat a b s g s1 g1 s2 g2 :
    matches a s g s1 g1 -> matches b s1 g1 s2 g2 ->
    matches (Cat a b) s g s2 g2
| m_opt_some a s g s1 g1 : matches a s g s1 g1 -> matches (Opt a) s g s1 g1
| m_opt_none a s g : matches (Opt a) s g s g
| m_star_stop a s g : matches (Star a) s g s g
| m_star_more a s g s1 g1 s2 g2 :
    matches a s g s1 g1 -> matches (Star a) s1 g1 s2 g2 ->
    matches (Star a) s g s2 g2
| m_plus a s g s1 g1 s2 g2 :
    matches a s g s1 g1 -> matches (Star a) s1 g1 s2 g2 ->
    matches (Plus a) s g s2 g2
| m_times_0 a s g : matches (Times O a) s g s g
| m_times_S n a s g s1 g1 s2 g2 :
    matches a s g s1 g1 -> matches (Times n a) s1 g1 s2 g2 ->
    matches (Times (S n) a) s g s2 g2
| m_group a s g s1 g1 :
    matches a s g s1 g1 ->
    matches (Group a) s g s1 (Some (take (length s - length s1) s)).

(** Patterns without a group. *)
Fixpoint group_free (r : regex) : bool :=
  match r with
  | Eps | One _ => true
  | Cat a b => group_free a && group_free b
  | Opt a | Star a | Plus a | Times _ a => group_free a
  | Group _ => false
  end.

(** Patterns that read decimal digits and nothing else, at least one. *)
Definition digit_run (r : regex) : bool :=
  match r with
  | Plus (One CDigit) => true
  | Times (S _) (One CDigit) => true
  | _ => false
  end.

(** Patterns that always close group 1, around [body]: a sequence with the
    group as one of its items and no group elsewhere. *)
Fixpoint group_of (body : regex -> bool) (r : regex) : bool :=
  match r with
  | Group b => body b && group_free b
  | Cat (Group b) rest => body b && group_free b && group_free rest
  | Cat a rest => group_free a && group_of body rest
  | _ => false
  end.

(** Patterns that match at every position: the empty word will do. *)
Definition always `{PyRuntime} (r : regex) : Prop :=
  forall A s g (k : K A), (forall s g, is_Some (k s g)) ->
    is_Some (run r s g k).

(** Text made of decimal digits. *)
Definition all_digits `{PyRuntime} (w : text) : Prop :=
  Forall (fun c => is_digit c = true) w.

(** The flags of [extract_caracteristicas_basicas]: the key of the returned
    dict and the phrases that set it. *)
Definition basicas_flags : list (text * list text) :=
  [ (u "terraza", [u "terraza"]);
    (u "balcon", [u "balcón"]);
    (u "garaje_incluido", [u "plaza de garaje incluida en el precio"]);
    (u "segunda_mano_buen_estado", [u "segunda mano/buen estado"]);
    (u "armarios_empotrados", [u "armarios empotrados"]);
    (u "cocina_equipada", [u "cocina equipada"]);
    (u "amueblada", [u "casa sin amueblar"; u "amueblado"]);
    (u "trastero", [u "trastero"]) ].

(** Equality of patterns is decidable. *)
#[global] Instance cclass_eq_dec : EqDecision cclass.
Proof. solve_decision. Defined.
#[global] Instance regex_eq_dec : EqDecision regex.
Proof. solve_decision. Defined.

(** The body of the group of [precio_m2_pattern]. *)
Definition decimal_numeral (b : regex) : bool :=
  bool_decide (b = cat [Plus digit; Opt (One (CChar 46)); Star digit]).

(** ** Frames for the examples *)

(** The three columns [normalizar_precios] reads. *)
Definition price_columns : list text :=
  [u "precio_inmueble"; u "price"; u "precio_m2"].

(** A listing as the scraper delivers it. *)
Definition raw_listing : DataFrame :=
  {| columns := [u "title"; u "price"; u "info_features";
                 u "certificado_energetico"; u "caracteristicas_basicas";
                 u "Precio del inmueble:"; u "Precio por m²:"];
     rows := [[VStr (u "Piso en venta"); VStr (u "150.000");
               VList [VStr (u "90 m²"); VStr (u "3 hab.");
                      VStr (u "Planta 2ª exterior con ascensor")];
               VList [VDict [(u "Consumo:",
                              VList [VStr (u "A"); VStr (u "icon-a")])]];
               VList [VStr (u "95 m² construidos"); VStr (u "Terraza")];
               VStr (u "150.000 €"); VStr (u "1.667 €/m²")]] |}.

(** A frame of one row. *)
Definition frame1 (cols : list text) (row : list value) : DataFrame :=
  {| columns := cols; rows := [row] |}.

(** ** Notions for the further properties *)

(** A number or nothing, and no negative number. *)
Definition absent_or_natural (o : option Z) : Prop :=
  forall z, o = Some z -> 0 <= z.

(** A value that is a numpy array. *)
Definition is_array (v : value) : bool :=
  match v with VArray _ => true | _ => false end.

(** The exception an array of fewer than two elements meets: the
    [IndexError] of the element that is not there, unless the truth test
    of the one element fails first. *)
Definition short_array_error (a : list value) : py_error :=
  match a with
  | [x] => match truthy x with Ok _ => IndexError | Err e => e end
  | _ => IndexError
  end.

(** The value a variable takes from a text: an empty text sets nothing. *)
Definition unless_empty (s : text) (old : value) : value :=
  if bool_decide (s = []) then old else VStr s.

(** The label of a column once the price headers are renamed. *)
Definition canonical_label (c : text) : text :=
  if text_eqb c (u "Precio del inmueble:") then u "precio_inmueble"
  else if text_eqb c (u "Precio por m²:") then u "precio_m2"
  else c.

(** The columns the three extractors add, in the order of the frame. *)
Definition extracted_columns : list text :=
  [ u "superficie_m2"; u "habitaciones"; u "garaje"; u "planta";
    u "ascensor";
    u "consumo_energetico_valor"; u "consumo_energetico_icono";
    u "emisiones_valor"; u "emisiones_icono";
    u "caracteristicas_basicas_superficie_m2"; u "superficie_util_m2";
    u "caracteristicas_basicas_habitaciones";
    u "caracteristicas_basicas_banos"; u "parcela_m2"; u "terraza";
    u "balcon"; u "garaje_incluido"; u "segunda_mano_buen_estado";
    u "armarios_empotrados"; u "orientacion"; u "cocina_equipada";
    u "amueblada"; u "calefaccion"; u "trastero"; u "construccion";
    u "plantas" ].

(** A listing with the price columns under their canonical names. *)
Definition priced_listing : DataFrame :=
  {| columns := [u "title"; u "precio_inmueble"; u "price"; u "precio_m2"];
     rows := [[VStr (u "Piso"); VStr (u "150.000 €"); VFloat (FNum 150);
               VStr (u "1.667 €/m²")]] |}.

(** Saving batches one after the other under one name with [replace] true,
    as a run over several pages of listings does. *)
Fixpoint save_all `{Storage} (batches : list DataFrame) (dest_path name : text)
    (fs : files) : result files :=
  match batches with
  | [] => Ok fs
  | b :: rest =>
      let! fs' := save_df_to_parquet b dest_path name true fs in
      save_all rest dest_path name fs'
  end.


(** * Properties *)

(** ** Substrings and literal patterns *)

Section ReFacts.
Context `{R : PyRuntime}.

Lemma starts_with_spec (w s : text) :
  starts_with w s = true <-> exists post, s = w ++ post.
Proof.
  revert s; induction w as [|a w IH]; intros s; simpl.
  - split; eauto.
  - destruct s as [|b s]; simpl.
    + split; [discriminate | intros [post Hp]; discriminate].
    + rewrite andb_true_iff, N.eqb_eq, IH. split.
      * intros [-> [post ->]]. eauto.
      * intros [post Hp]. injection Hp as -> ->. eauto.
Qed.

Lemma contains_spec (w s : text) :
  contains w s = true <-> exists pre post, s = pre ++ w ++ post.
Proof.
  induction s as [|c s IH]; simpl.
  - rewrite orb_false_r, starts_with_spec. split.
    + intros [post Hp]. exists [], post. done.
    + intros (pre & post & Hp). destruct pre; simpl in Hp.
      * eauto.
      * discriminate.
  - rewrite orb_true_iff, IH, starts_with_spec. split.
    + intros [[post Hp] | (pre & post & ->)].
      * exists [], post. done.
      * exists (c :: pre), post. done.
    + intros (pre & post & Hp). destruct pre as [|x pre]; simpl in Hp.
      * left. eauto.
      * right. injection Hp as -> ->. eauto.
Qed.

Lemma run_lit {A} (w s : text) g (k : K A) :
  run (lit w) s g k = if starts_with w s then k (drop (length w) s) g else None.
Proof.
  revert s; induction w as [|c w IH]; intros s; simpl.
  - by rewrite drop_0.
  - destruct s as [|x s]; simpl; [done|].
    rewrite (N.eqb_sym c x). destruct (x =? c)%N; simpl; [apply IH | done].
Qed.

Lemma search_lit (w s : text) : found (search (lit w) s) = contains w s.
Proof.
  induction s as [|c s IH]; simpl; unfold match_here; rewrite run_lit.
  - by destruct (starts_with w []).
  - destruct (starts_with w (c :: s)); simpl; [done | apply IH].
Qed.

(** ** The matcher follows the matching relation *)

Lemma star_matches {A} a (body : text -> option text -> K A -> option A) :
  (forall s g k v, body s g k = Some v ->
     exists s' g', matches a s g s' g' /\ k s' g' = Some v) ->
  forall fuel s g (k : K A) v, star body fuel s g k = Some v ->
    exists s' g', matches (Star a) s g s' g' /\ k s' g' = Some v.
Proof.
  intros Hbody. induction fuel as [|fuel IH]; intros s g k v; simpl.
  - intros Hk. exists s, g. split; [constructor | done].
  - destruct (body s g _) as [v'|] eqn:Hb.
    + intros [= ->]. apply Hbody in Hb as (s1 & g1 & Ha & Hk).
      destruct (length s1 <? length s)%nat; [|done].
      apply IH in Hk as (s2 & g2 & Hs & Hk).
      exists s2, g2. split; [econstructor; eauto | done].
    + intros Hk. exists s, g. split; [constructor | done].
Qed.

Lemma run_matches r : forall {A} s g (k : K A) v,
  run r s g k = Some v ->
  exists s' g', matches r s g s' g' /\ k s' g' = Some v.
Proof.
  induction r as [|c|a IHa b IHb|a IHa|a IHa|a IHa|n a IHa|a IHa];
    intros A s g k v; simpl.
  - intros Hk. exists s, g. split; [constructor | done].
  - destruct s as [|x s]; [done|].
    destruct (in_class c x) eqn:Hc; [|done].
    intros Hk. exists s, g. split; [by constructor | done].
  - intros H. apply IHa in H as (s1 & g1 & Ha & H).
    apply IHb in H as (s2 & g2 & Hb & Hk).
    exists s2, g2. split; [econstructor; eauto | done].
  - destruct (run a s g k) as [v'|] eqn:Ha.
    + intros [= ->]. apply IHa in Ha as (s1 & g1 & Ha & Hk).
      exists s1, g1. split; [by constructor | done].
    + intros Hk. exists s, g. split; [apply m_opt_none | done].
  - apply star_matches. intros s0 g0 k0 v0. apply IHa.
  - intros H. apply IHa in H as (s1 & g1 & Ha & H).
    apply (star_matches a) in H as (s2 & g2 & Hs & Hk); [|intros ????; apply IHa].
    exists s2, g2. split; [econstructor; eauto | done].
  - revert s g. induction n as [|n IHn]; intros s g.
    + intros Hk. exists s, g. split; [constructor | done].
    + intros H. apply IHa in H as (s1 & g1 & Ha & H).
      apply IHn in H as (s2 & g2 & Hs & Hk).
      exists s2, g2. split; [econstructor; eauto | done].
  - intros H. apply IHa in H as (s1 & g1 & Ha & Hk).
    exists s1, (Some (take (length s - length s1) s)).
    split; [eapply m_group, Ha | done].
Qed.


Lemma search_matches r t g :
  search r t = Some g -> exists t' s', matches r t' None s' g.
Proof.
  induction t as [|c t IH]; simpl; unfold match_here.
  - destruct (run r [] None _) as [m|] eqn:Hr; [|done].
    intros [= ->]. apply run_matches in Hr as (s' & g' & Hm & [= ->]). eauto.
  - destruct (run r (c :: t) None _) as [m|] eqn:Hr; [|exact IH].
    intros [= ->]. apply run_matches in Hr as (s' & g' & Hm & [= ->]). eauto.
Qed.

(** ** What group 1 holds *)

Lemma matches_suffix r s g s' g' :
  matches r s g s' g' -> exists w, s = w ++ s'.
Proof.
  induction 1 as [s g|c x s g Hc|a b s g s1 g1 s2 g2 _ [w1 ->] _ [w2 ->]
                 |a s g s1 g1 _ IH|a s g|a s g
                 |a s g s1 g1 s2 g2 _ [w1 ->] _ [w2 ->]
                 |a s g s1 g1 s2 g2 _ [w1 ->] _ [w2 ->]
                 |a s g|n a s g s1 g1 s2 g2 _ [w1 ->] _ [w2 ->]
                 |a s g s1 g1 _ IH];
    try (by exists []); try (by exists (w1 ++ w2); rewrite <- app_assoc);
    try exact IH.
  by exists [x].
Qed.

Lemma matches_group_free r s g s' g' :
  matches r s g s' g' -> group_free r = true -> g' = g.
Proof.
  induction 1; simpl; intros Hf; try done;
    try (apply andb_true_iff in Hf as [Hf1 Hf2]);
    try (rewrite IHmatches2, IHmatches1; done); auto.
Qed.

Lemma matches_digit x s g s' g' :
  matches (One CDigit) (x :: s) g s' g' -> is_digit x = true /\ s' = s.
Proof. by inversion 1. Qed.

Lemma matches_star_digits s g s' g' :
  matches (Star (One CDigit)) s g s' g' ->
  exists w, s = w ++ s' /\ all_digits w.
Proof.
  remember (Star (One CDigit)) as r eqn:Hr. intros Hm.
  induction Hm as [| | | | |a s g|a s g s1 g1 s2 g2 Ha _ Hs IH| | | |];
    try discriminate; injection Hr as ->.
  - exists []. split; [done | constructor].
  - destruct (IH eq_refl) as (w & -> & Hw).
    inversion Ha as [|c x s0 g0 Hc| | | | | | | | |]; subst.
    exists (x :: w). split; [done | by constructor].
Qed.

Lemma matches_times_digits n s g s' g' :
  matches (Times n (One CDigit)) s g s' g' ->
  exists w, s = w ++ s' /\ all_digits w /\ length w = n.
Proof.
  revert s g. induction n as [|n IH]; intros s g Hm.
  - inversion Hm; subst. exists []. repeat split. constructor.
  - inversion Hm as [| | | | | | | | |n0 a s0 g0 s1 g1 s2 g2 Ha Hs|]; subst.
    apply IH in Hs as (w & -> & Hw & Hl).
    inversion Ha; subst.
    exists (x :: w). split; [done|].
    split; [by constructor | simpl; lia].
Qed.

Lemma matches_digit_run r s g s' g' :
  digit_run r = true -> matches r s g s' g' ->
  exists w, s = w ++ s' /\ w <> [] /\ all_digits w.
Proof.
  destruct r as [| | | | |a|n a|]; try done; simpl.
  - destruct a as [|[]| | | | | |]; try done. intros _ Hm.
    inversion Hm as [| | | | | | |a s0 g0 s1 g1 s2 g2 Ha Hs| | |]; subst.
    apply matches_star_digits in Hs as (w & -> & Hw).
    inversion Ha; subst.
    exists (x :: w). split; [done|]. split; [done | by constructor].
  - destruct n as [|n]; [done|].
    destruct a as [|[]| | | | | |]; try done. intros _ Hm.
    apply matches_times_digits in Hm as (w & -> & Hw & Hl).
    exists w. split; [done|]. split; [by destruct w | done].
Qed.

Lemma matches_group_of body r s g s' g' :
  group_of body r = true -> matches r s g s' g' ->
  exists b w s1 g0 g1,
    body b = true /\ matches b (w ++ s1) g0 s1 g1 /\ g' = Some w.
Proof.
  assert (Hgrp : forall b s g s' g', matches (Group b) s g s' g' ->
            exists w g1, matches b (w ++ s') g s' g1 /\ g' = Some w).
  { intros b s0 g0 s0' g0' Hm.
    inversion Hm as [| | | | | | | | | |a s1 g1 s2 g2 Ha]; subst.
    destruct (matches_suffix _ _ _ _ _ Ha) as [w ->].
    exists w, g2. split; [done|].
    rewrite length_app, Nat.add_sub, take_app_length. done. }
  revert s g. induction r as [| |a _ rest IH| | | | |b _]; try done;
    intros s g; simpl.
  - intros Hg Hm.
    inversion Hm as [| |a0 b0 s0 g0 s1 g1 s2 g2 Ha Hr| | | | | | | |]; subst.
    destruct a as [| | | | | | |b];
      try (apply andb_true_iff in Hg as [_ Hg]; by eapply IH).
    apply andb_true_iff in Hg as [Hg Hrest].
    apply andb_true_iff in Hg as [Hb _].
    apply Hgrp in Ha as (w & g2' & Ha & ->).
    apply matches_group_free in Hr; [|done]. subst.
    by exists b, w, s1, g, g2'.
  - intros Hg Hm. apply andb_true_iff in Hg as [Hb _].
    apply Hgrp in Hm as (w & g1 & Hm & ->).
    by exists b, w, s', g, g1.
Qed.

Lemma digits_value_total w acc :
  all_digits w -> exists z, digits_value acc w = Some z.
Proof.
  intros Hw. revert acc. induction Hw as [|c w Hc _ IH]; intros acc; simpl.
  - eauto.
  - unfold is_digit in Hc. destruct (decimal_digit c); [apply IH | done].
Qed.

Lemma search_matches_len r t g :
  search r t = Some g ->
  exists t' s', matches r t' None s' g /\ (length t' <= length t)%nat.
Proof.
  induction t as [|c t IH]; simpl; unfold match_here.
  - destruct (run r [] None _) as [m|] eqn:Hr; [|done].
    intros [= ->]. apply run_matches in Hr as (s' & g' & Hm & [= ->]). eauto.
  - destruct (run r (c :: t) None _) as [m|] eqn:Hr.
    + intros [= ->]. apply run_matches in Hr as (s' & g' & Hm & [= ->]).
      eauto.
    + intros Hs. destruct (IH Hs) as (t' & s' & Hm & Hlen).
      exists t', s'. split; [done | lia].
Qed.

Lemma matches_group_of_len body r s g s' g' :
  group_of body r = true -> matches r s g s' g' ->
  exists b w s1 g0 g1,
    body b = true /\ matches b (w ++ s1) g0 s1 g1 /\ g' = Some w
    /\ (length w <= length s)%nat.
Proof.
  assert (Hgrp : forall b s g s' g', matches (Group b) s g s' g' ->
            exists w g1, matches b (w ++ s') g s' g1 /\ g' = Some w
                         /\ s = w ++ s').
  { intros b s0 g0 s0' g0' Hm.
    inversion Hm as [| | | | | | | | | |a s1 g1 s2 g2 Ha]; subst.
    destruct (matches_suffix _ _ _ _ _ Ha) as [w ->].
    exists w, g2. split; [done|]. split; [|done].
    rewrite length_app, Nat.add_sub, take_app_length. done. }
  revert s g. induction r as [| |a _ rest IH| | | | |b _]; try done;
    intros s g; simpl.
  - intros Hg Hm.
    inversion Hm as [| |a0 b0 s0 g0 s1 g1 s2 g2 Ha Hr| | | | | | | |]; subst.
    assert (forall (Hg : group_free a && group_of body rest = true),
              exists b w s1 g0 g1,
                body b = true /\ matches b (w ++ s1) g0 s1 g1
                /\ g' = Some w /\ (length w <= length s)%nat) as Hlater.
    { intros Hg'. apply andb_true_iff in Hg' as [_ Hg'].
      destruct (IH _ _ Hg' Hr) as (b & w & s3 & g3 & g4 & Hb & Hmb & -> & Hl).
      destruct (matches_suffix _ _ _ _ _ Ha) as [wa ->].
      exists b, w, s3, g3, g4. repeat split; try done.
      rewrite length_app. lia. }
    destruct a as [| | | | | | |b]; try (by apply Hlater).
    apply andb_true_iff in Hg as [Hg Hrest].
    apply andb_true_iff in Hg as [Hb _].
    apply Hgrp in Ha as (w & g2' & Ha & -> & ->).
    apply matches_group_free in Hr; [|done]. subst.
    exists b, w, s1, g, g2'. repeat split; try done. rewrite length_app. lia.
  - intros Hg Hm. apply andb_true_iff in Hg as [Hb _].
    apply Hgrp in Hm as (w & g1 & Hm & -> & ->).
    exists b, w, s', g, g1. repeat split; try done. rewrite length_app. lia.
Qed.

Lemma exceeds_cap_mono (n m : nat) :
  (n <= m)%nat -> exceeds_cap n = true -> exceeds_cap m = true.
Proof.
  unfold exceeds_cap. rewrite !andb_true_iff, !Nat.ltb_lt. lia.
Qed.

(** [int] on group 1 of a pattern whose group is a run of digits either
    gives a number or meets a numeral beyond its limit, which takes a text
    that long. *)
Lemma int_group_cases r t :
  group_of digit_run r = true ->
  (exists o, int_group (search r t) = Ok o)
  \/ (int_group (search r t) = Err ValueError
      /\ exceeds_cap (length t) = true).
Proof.
  intros Hr. destruct (search r t) as [g|] eqn:Hs; [|left; by exists None].
  apply search_matches_len in Hs as (t' & s' & Hm & Ht').
  apply (matches_group_of_len _ _ _ _ _ _ Hr) in Hm
    as (b & w & s1 & g0 & g1 & Hb & Hm & -> & Hlen).
  apply (matches_digit_run _ _ _ _ _ Hb) in Hm as (w' & Hw & Hne & Hd).
  apply app_inv_tail in Hw as ->.
  destruct (digits_value_total w' 0 Hd) as [z Hz].
  simpl. unfold int_of_digits. destruct w' as [|c w']; [done|].
  destruct (exceeds_cap (length (c :: w'))) eqn:Hcap.
  - right. split; [done|]. eapply exceeds_cap_mono; [|exact Hcap]. lia.
  - left. exists (Some z). by rewrite Hz.
Qed.

Lemma strip_group_total r t :
  group_of (fun _ => true) r = true ->
  exists o, strip_group (search r t) = Ok o.
Proof.
  intros Hr. destruct (search r t) as [g|] eqn:Hs; [|by exists None].
  apply search_matches in Hs as (t' & s' & Hm).
  apply (matches_group_of _ _ _ _ _ _ Hr) in Hm
    as (b & w & s1 & g0 & g1 & _ & _ & ->).
  by exists (Some (str_strip w)).
Qed.

End ReFacts.

(** ** The field extractors *)

Section ExtractorFacts.
Context `{R : PyRuntime}.

(** [extract_info_features] on a list of strings: it returns, its garage
    and lift fields decided by the presence of four phrases and its numbers
    read by [int] from group 1, or [int] refuses a numeral, which takes a
    text beyond its limit. *)
Lemma extract_info_features_cases (info : list text) :
  let t := str_lower (str_join (u " ") info) in
  (exists r,
     extract_info_features info = Ok r
     /\ garaje r = contains (u "garaje incluido") t
                   || contains (u "con garaje") t
     /\ ascensor r =
          (if contains (u "con ascensor") t then Some true
           else if contains (u "sin ascensor") t then Some false
           else None)
     /\ int_group (search Info.superficie_pattern t) = Ok (superficie_m2 r)
     /\ int_group (search Info.habitaciones_pattern t) = Ok (habitaciones r)
     /\ int_group (search Info.planta_pattern t) = Ok (planta r))
  \/ (extract_info_features info = Err ValueError
      /\ exceeds_cap (length t) = true).
Proof.
  intros t. unfold extract_info_features. fold t.
  destruct (int_group_cases Info.superficie_pattern t eq_refl)
    as [[s Hs] | [Hs Hc]]; rewrite Hs; cbn [bind]; [|by right].
  destruct (int_group_cases Info.habitaciones_pattern t eq_refl)
    as [[h Hh] | [Hh Hc]]; rewrite Hh; cbn [bind]; [|by right].
  destruct (int_group_cases Info.planta_pattern t eq_refl)
    as [[p Hp] | [Hp Hc]]; rewrite Hp; cbn [bind]; [|by right].
  left. eexists. split; [reflexivity|].
  cbn [garaje ascensor superficie_m2 habitaciones planta].
  unfold Info.garaje_incluido_pattern, Info.con_garaje_pattern,
    Info.con_ascensor_pattern, Info.sin_ascensor_pattern.
  rewrite !search_lit. split; [|by repeat split].
  by destruct (contains (u "garaje incluido") t || contains (u "con garaje") t).
Qed.

(** C6: whenever [extract_info_features] returns, [ascensor] is [True] if
    the lowercased joined text contains "con ascensor" (tested first),
    [False] if it does not but contains "sin ascensor", and [None] if it
    contains neither.  The one way not to return on a list of strings is
    the [ValueError] of [int] on a numeral beyond its limit of digits,
    which takes a text longer than that limit. *)
Theorem ascensor_tri_state (info : list text) :
  let t := str_lower (str_join (u " ") info) in
  match extract_info_features info with
  | Ok r =>
      ascensor r =
        if contains (u "con ascensor") t then Some true
        else if contains (u "sin ascensor") t then Some false
        else None
  | Err e => e = ValueError /\ exceeds_cap (length t) = true
  end.
Proof.
  intros t.
  destruct (extract_info_features_cases info)
    as [(r & -> & _ & Ha & _) | [-> Hc]]; done.
Qed.

(** C10: on the empty list [extract_info_features] returns, without an
    exception, [None] for [superficie_m2], [habitaciones], [planta] and
    [ascensor] and [False] for [garaje]; and whenever it returns, the dict
    binds [garaje] to a boolean (it fails to return only as said for
    C6). *)
Theorem info_features_empty :
  extract_info_features [] =
    Ok {| superficie_m2 := None; habitaciones := None; garaje := false;
          planta := None; ascensor := None |}
  /\ forall info,
       match extract_info_features info with
       | Ok r =>
           exists b,
             dict_get (u "garaje") (info_features_dict r) = Some (VBool b)
       | Err e =>
           e = ValueError
           /\ exceeds_cap (length (str_lower (str_join (u " ") info))) = true
       end.
Proof.
  split.
  - unfold extract_info_features. simpl str_join. rewrite str_lower_nil.
    reflexivity.
  - intros info.
    destruct (extract_info_features_cases info)
      as [(r & -> & _) | [-> Hc]]; [|done].
    by exists (garaje r).
Qed.

(** [extract_caracteristicas_basicas] on a list of strings: it returns,
    each flag the presence of its phrases, each number read by [int] from
    group 1 and the heating text stripped, or [int] refuses a numeral,
    which takes a text beyond its limit. *)
Lemma extract_caracteristicas_basicas_cases (l : list text) :
  let t := str_lower (str_join (u " ") l) in
  (exists r,
     extract_caracteristicas_basicas l = Ok r
     /\ (terraza r = contains (u "terraza") t
         /\ balcon r = contains (u "balcón") t
         /\ garaje_incluido r =
              contains (u "plaza de garaje incluida en el precio") t
         /\ segunda_mano_buen_estado r =
              contains (u "segunda mano/buen estado") t
         /\ armarios_empotrados r = contains (u "armarios empotrados") t
         /\ cocina_equipada r = contains (u "cocina equipada") t
         /\ amueblada r =
              contains (u "casa sin amueblar") t || contains (u "amueblado") t
         /\ trastero r = contains (u "trastero") t)
     /\ (int_group (search Basicas.superficie_pattern t)
           = Ok (caracteristicas_basicas_superficie_m2 r)
         /\ int_group (search Basicas.superficie_util_pattern t)
              = Ok (superficie_util_m2 r)
         /\ int_group (search Basicas.habitaciones_pattern t)
              = Ok (caracteristicas_basicas_habitaciones r)
         /\ int_group (search Basicas.banos_pattern t)
              = Ok (caracteristicas_basicas_banos r)
         /\ int_group (search Basicas.parcela_pattern t) = Ok (parcela_m2 r)
         /\ int_group (search Basicas.construccion_pattern t)
              = Ok (construccion r)
         /\ int_group (search Basicas.plantas_pattern t) = Ok (plantas r))
     /\ strip_group (search Basicas.calefaccion_pattern t)
          = Ok (calefaccion r))
  \/ (extract_caracteristicas_basicas l = Err ValueError
      /\ exceeds_cap (length t) = true).
Proof.
  intros t. unfold extract_caracteristicas_basicas. fold t.
  destruct (int_group_cases Basicas.superficie_pattern t eq_refl)
    as [[v1 H1] | [H1 Hc]]; rewrite H1; cbn [bind]; [|by right].
  destruct (int_group_cases Basicas.superficie_util_pattern t eq_refl)
    as [[v2 H2] | [H2 Hc]]; rewrite H2; cbn [bind]; [|by right].
  destruct (int_group_cases Basicas.habitaciones_pattern t eq_refl)
    as [[v3 H3] | [H3 Hc]]; rewrite H3; cbn [bind]; [|by right].
  destruct (int_group_cases Basicas.banos_pattern t eq_refl)
    as [[v4 H4] | [H4 Hc]]; rewrite H4; cbn [bind]; [|by right].
  destruct (int_group_cases Basicas.parcela_pattern t eq_refl)
    as [[v5 H5] | [H5 Hc]]; rewrite H5; cbn [bind]; [|by right].
  destruct (strip_group_total Basicas.calefaccion_pattern t eq_refl)
    as [vc H6]; rewrite H6; cbn [bind].
  destruct (int_group_cases Basicas.construccion_pattern t eq_refl)
    as [[v7 H7] | [H7 Hc]]; rewrite H7; cbn [bind]; [|by right].
  destruct (int_group_cases Basicas.plantas_pattern t eq_refl)
    as [[v8 H8] | [H8 Hc]]; rewrite H8; cbn [bind]; [|by right].
  left. eexists. split; [reflexivity|].
  cbn [terraza balcon garaje_incluido segunda_mano_buen_estado
       armarios_empotrados cocina_equipada amueblada trastero
       caracteristicas_basicas_superficie_m2 superficie_util_m2
       caracteristicas_basicas_habitaciones caracteristicas_basicas_banos
       parcela_m2 construccion plantas calefaccion].
  unfold Basicas.terraza_pattern, Basicas.balcon_pattern,
    Basicas.garaje_pattern, Basicas.estado_pattern, Basicas.armarios_pattern,
    Basicas.cocina_pattern, Basicas.casas_amueblada_pattern,
    Basicas.amueblado_pattern, Basicas.trastero_pattern.
  rewrite !search_lit. repeat split.
Qed.

(** C7: whenever [extract_caracteristicas_basicas] returns, each of the
    eight flags of its dict (terrace, balcony, included garage space,
    second-hand good condition, built-in wardrobes, equipped kitchen,
    furnished, storage room) is bound to a boolean, never to [None]:
    [True] when one of its phrases occurs in the lowercased joined text and
    [False] when none does.  The one way not to return on a list of
    strings is the [ValueError] of [int] on a numeral beyond its limit of
    digits, which takes a text longer than that limit. *)
Theorem basicas_flags_are_booleans (l : list text) :
  let t := str_lower (str_join (u " ") l) in
  match extract_caracteristicas_basicas l with
  | Ok r =>
      Forall (fun flag =>
                dict_get flag.1 (caracteristicas_basicas_dict r)
                = Some (VBool (existsb (fun w => contains w t) flag.2)))
             basicas_flags
  | Err e => e = ValueError /\ exceeds_cap (length t) = true
  end.
Proof.
  intros t.
  destruct (extract_caracteristicas_basicas_cases l)
    as [(r & -> & (H1 & H2 & H3 & H4 & H5 & H6 & H7 & H8) & _) | [-> Hc]];
    [|done].
  fold t in H1, H2, H3, H4, H5, H6, H7, H8.
  unfold basicas_flags.
  repeat (apply Forall_cons; split); [..|apply Forall_nil];
    cbn [fst snd existsb]; rewrite ?orb_false_r;
    rewrite <- ?H1, <- ?H2, <- ?H3, <- ?H4, <- ?H5, <- ?H6, <- ?H7, <- ?H8;
    vm_compute; reflexivity.
Qed.

End ExtractorFacts.

(** C3, as the code has it: on the entries [{"Consumo:": ("A", "icon-a")}]
    and [{"Otro:": ("X", "Y")}] with each pair a numpy array (what a list
    becomes once a batch has been read back from parquet),
    [extract_certificado_energetico] returns the dict with
    [consumo_energetico_valor] "A", [consumo_energetico_icono] "icon-a" and
    [None] for [emisiones_valor] and [emisiones_icono]. *)
Theorem certificado_energetico_example :
  extract_certificado_energetico
    (VList [ VDict [(u "Consumo:", VArray [VStr (u "A"); VStr (u "icon-a")])];
             VDict [(u "Otro:", VArray [VStr (u "X"); VStr (u "Y")])] ])
  = Ok [ (u "consumo_energetico_valor", VStr (u "A"));
         (u "consumo_energetico_icono", VStr (u "icon-a"));
         (u "emisiones_valor", VNone);
         (u "emisiones_icono", VNone) ].
Proof. reflexivity. Qed.

(** C3 fails as stated: on the entries as the claim writes them and the
    scraper builds them, each pair a Python list, the
    [isinstance(..., np.ndarray)] guard skips both assignments and the
    four fields are [None], not "A" and "icon-a". *)
Lemma certificado_energetico_lists :
  let entries :=
    VList [ VDict [(u "Consumo:", VList [VStr (u "A"); VStr (u "icon-a")])];
            VDict [(u "Otro:", VList [VStr (u "X"); VStr (u "Y")])] ] in
  extract_certificado_energetico entries
  = Ok [ (u "consumo_energetico_valor", VNone);
         (u "consumo_energetico_icono", VNone);
         (u "emisiones_valor", VNone);
         (u "emisiones_icono", VNone) ]
  /\ extract_certificado_energetico entries
     <> Ok [ (u "consumo_energetico_valor", VStr (u "A"));
             (u "consumo_energetico_icono", VStr (u "icon-a"));
             (u "emisiones_valor", VNone);
             (u "emisiones_icono", VNone) ].
Proof. split; [reflexivity | discriminate]. Qed.

(** ** Price normalisation *)

Section PriceFacts.
Context `{R : PyRuntime}.

Lemma mapM_total {A B} (f : A -> result B) (l : list A) :
  (forall x, x ∈ l -> exists y, f x = Ok y) ->
  exists out, mapM f l = Ok out /\ length out = length l /\
    forall i x, l !! i = Some x -> exists y, f x = Ok y /\ out !! i = Some y.
Proof.
  induction l as [|x l IH]; intros Hf; simpl.
  - exists []. repeat split. intros i x Hi. by rewrite lookup_nil in Hi.
  - destruct (Hf x) as [y Hy]; [by left|].
    destruct IH as (out & -> & Hlen & Hout); [intros; apply Hf; by right|].
    rewrite Hy. simpl. exists (y :: out). split; [done|].
    split; [simpl; lia|].
    intros [|i] x' Hi; simpl in *.
    + injection Hi as <-. eauto.
    + by apply Hout.
Qed.

Lemma mapM_raises {A B} (f : A -> result B) (l : list A) (P : py_error -> Prop) :
  (forall x e, f x = Err e -> P e) ->
  (exists x e, x ∈ l /\ f x = Err e) ->
  exists e, mapM f l = Err e /\ P e.
Proof.
  intros HP. induction l as [|x l IH]; intros (x0 & e0 & Hin & He).
  - by apply elem_of_nil in Hin.
  - simpl. destruct (f x) as [y|e] eqn:Hx.
    + apply elem_of_cons in Hin as [-> | Hin]; [congruence|].
      destruct IH as (e & -> & He'); [eauto|]. simpl. eauto.
    + simpl. eauto.
Qed.

Lemma numeric_column_text (col : list value) (s : text) :
  VStr s ∈ col -> numeric_column col = false.
Proof.
  intros Hin. unfold numeric_column. apply list_elem_of_In in Hin.
  apply orb_false_iff.
  split; apply andb_false_iff; left; apply not_true_is_false;
    rewrite forallb_forall; intros Hall; by apply Hall in Hin.
Qed.

Lemma cell_int64_errors (v : value) (e : py_error) :
  cell_int64 v = Err e -> e = ValueError \/ e = OverflowError.
Proof.
  destruct v; simpl; try (intros [= <-]; by left).
  destruct (int_of_digits s) as [z|]; [|intros [= <-]; by left].
  destruct (z <=? int64_max); [done | intros [= <-]; by right].
Qed.

Lemma decimal_value_digits (d : text) (acc : Z) :
  all_digits d -> exists q, decimal_value acc d = Some q.
Proof.
  intros Hd. revert acc. induction Hd as [|c d Hc Hd IH]; intros acc; simpl.
  - eauto.
  - destruct (c =? 46)%N.
    + destruct d as [|c' d]; [eauto|].
      destruct (digits_value_total (c' :: d) acc Hd) as [z ->]. eauto.
    + unfold is_digit in Hc. destruct (decimal_digit c); [apply IH | done].
Qed.

Lemma decimal_value_app (d rest : text) (acc : Z) :
  all_digits d -> is_digit 46%N = false ->
  exists acc', decimal_value acc (d ++ rest) = decimal_value acc' rest.
Proof.
  intros Hd H46. revert acc. induction Hd as [|c d Hc Hd IH]; intros acc; simpl.
  - eauto.
  - destruct (c =? 46)%N eqn:Hc46.
    + apply N.eqb_eq in Hc46 as ->. congruence.
    + unfold is_digit in Hc. destruct (decimal_digit c); [apply IH | done].
Qed.

Lemma matches_decimal_numeral b w s1 g0 g1 :
  decimal_numeral b = true -> matches b (w ++ s1) g0 s1 g1 ->
  exists q, decimal_value 0 w = Some q.
Proof.
  intros Hb Hm. apply bool_decide_eq_true in Hb as ->.
  inversion Hm as [| |a0 b0 s0 g s2 g2 s3 g3 Hplus Hrest| | | | | | | |]; subst.
  inversion Hrest as [| |a0 b0 s0 g s4 g4 s5 g5 Hopt Hrest'| | | | | | | |]; subst.
  inversion Hrest' as [| |a0 b0 s0 g s6 g6 s7 g7 Hstar Heps| | | | | | | |]; subst.
  inversion Heps; subst.
  apply (matches_digit_run (Plus (One CDigit))) in Hplus
    as (d1 & Hw & _ & Hd1); [|done].
  apply matches_star_digits in Hstar as (d2 & -> & Hd2).
  assert (exists p, s2 = p ++ d2 ++ s1 /\ (p = [] \/ p = [46%N]))
    as (p & -> & Hp).
  { inversion Hopt as [| | |a0 s0 g s8 g8 Hone| | | | | | |]; subst.
    - inversion Hone as [|c x s0 g Hc| | | | | | | | |]; subst.
      simpl in Hc. apply N.eqb_eq in Hc as ->.
      exists [46%N]. split; [done | by right].
    - exists []. split; [done | by left]. }
  rewrite !app_assoc in Hw. apply app_inv_tail in Hw as ->.
  rewrite <- app_assoc.
  destruct (is_digit 46%N) eqn:H46.
  - apply decimal_value_digits. apply Forall_app. split; [done|].
    apply Forall_app. split; [|done].
    destruct Hp as [-> | ->]; [constructor | by repeat constructor].
  - destruct (decimal_value_app d1 (p ++ d2) 0 Hd1 H46) as [acc ->].
    destruct Hp as [-> | ->]; simpl.
    + by apply decimal_value_digits.
    + destruct d2 as [|c d2]; [eauto|].
      destruct (digits_value_total (c :: d2) acc Hd2) as [z ->]. eauto.
Qed.

Lemma precio_m2_cell_total (v : value) :
  exists y, cell_float64
              (cell_extract precio_m2_pattern (cell_replace (u ",") (u ".") v))
            = Ok y.
Proof.
  destruct v; simpl; eauto.
  destruct (search _ _) as [[w|]|] eqn:Hs; simpl; eauto.
  apply search_matches in Hs as (t' & s' & Hm).
  apply (matches_group_of decimal_numeral) in Hm
    as (b & w' & s1 & g0 & g1 & Hb & Hm & [= ->]); [|done].
  destruct (matches_decimal_numeral _ _ _ _ _ Hb Hm) as [q ->]. eauto.
Qed.

Lemma star_succeeds {A} (body : text -> option text -> K A -> option A)
    fuel s g (k : K A) :
  (forall s g, is_Some (k s g)) -> is_Some (star body fuel s g k).
Proof.
  intros Hk. destruct fuel as [|fuel]; simpl; [apply Hk|].
  destruct (body s g _); [eauto | apply Hk].
Qed.

Lemma always_eps : always Eps.
Proof. intros A s g k Hk. apply Hk. Qed.

Lemma always_opt a : always (Opt a).
Proof.
  intros A s g k Hk. cbn [run]. destruct (run a s g k); [eauto | apply Hk].
Qed.

Lemma always_star a : always (Star a).
Proof. intros A s g k Hk. cbn [run]. by apply star_succeeds. Qed.

Lemma always_cat a b : always a -> always b -> always (Cat a b).
Proof.
  intros Ha Hb A s g k Hk. cbn [run]. apply Ha. intros s' g'. by apply Hb.
Qed.

Lemma run_group {A} a s g (k : K A) :
  run (Group a) s g k
  = run a s g (fun s' _ => k s' (Some (take (length s - length s') s))).
Proof. reflexivity. Qed.

Lemma run_cat {A} a b s g (k : K A) :
  run (Cat a b) s g k = run a s g (fun s' g' => run b s' g' k).
Proof. reflexivity. Qed.

Lemma run_plus_digit {A} c s g (k : K A) :
  run (Plus digit) (c :: s) g k
  = if is_digit c then star (run digit) (length s) s g k else None.
Proof. cbn [run digit in_class]. by destruct (is_digit c). Qed.

(** Both price patterns match where a decimal digit stands, and nowhere
    else. *)
Lemma price_pattern_here (r : regex) (s : text) :
  r = precio_inmueble_pattern \/ r = precio_m2_pattern ->
  is_Some (match_here r s) <-> exists c s', s = c :: s' /\ is_digit c = true.
Proof.
  intros Hr. unfold match_here. destruct s as [|c s].
  - split; [|intros (? & ? & ? & _); done].
    destruct Hr as [-> | ->]; simpl; by intros [? ?].
  - destruct Hr as [-> | ->];
      unfold precio_inmueble_pattern, precio_m2_pattern;
      rewrite run_group; cbn [cat foldr]; rewrite ?run_cat, run_plus_digit;
      destruct (is_digit c) eqn:Hc.
    + split; [eauto|]. intros _. apply star_succeeds. eauto.
    + split; [by intros [? ?] | intros (? & ? & [= <- <-] & ?); congruence].
    + split; [eauto|]. intros _. apply star_succeeds. intros s0 g0.
      apply (always_cat (Opt _) (Cat (Star _) Eps));
        [apply always_opt | apply always_cat;
                            [apply always_star | apply always_eps] |].
      eauto.
    + split; [by intros [? ?] | intros (? & ? & [= <- <-] & ?); congruence].
Qed.

(** A text has no match exactly when it holds no decimal digit. *)
Lemma price_pattern_none (r : regex) (t : text) :
  r = precio_inmueble_pattern \/ r = precio_m2_pattern ->
  search r t = None <-> Forall (fun c => is_digit c = false) t.
Proof.
  intros Hr. induction t as [|c t IH]; simpl.
  - destruct (match_here r []) as [m|] eqn:Hm.
    + assert (is_Some (match_here r [])) as Hs by eauto.
      apply price_pattern_here in Hs as (? & ? & ? & _); done.
    + split; [constructor | done].
  - destruct (match_here r (c :: t)) as [m|] eqn:Hm.
    + assert (is_Some (match_here r (c :: t))) as Hs by eauto.
      apply price_pattern_here in Hs as (c' & s' & [= <- <-] & Hc); [|done].
      split; [done|]. intros Hall. inversion Hall; congruence.
    + rewrite IH. split.
      * intros Hall. constructor; [|done].
        destruct (is_digit c) eqn:Hc; [|done].
        assert (is_Some (match_here r (c :: t))) as [? ?]; [|congruence].
        apply price_pattern_here; eauto.
      * by inversion 1.
Qed.

(** C1, as the code has it: when a [precio_inmueble] text holds no match of
    its pattern once the full stops are removed, [normalizar_precios] fails
    for the whole batch with the [ValueError] of the integer cast (or the
    [OverflowError] of an earlier row), an exception that carries neither
    the field nor the text; a [precio_m2] text without a match once the
    commas are full stops is no error: the conversion of the column
    succeeds and the cell of that row is NaN. *)
Theorem precios_without_match (df : DataFrame) :
  (forall col s,
     get_column (u "precio_inmueble") df = Ok col -> VStr s ∈ col ->
     search precio_inmueble_pattern (str_replace (u ".") (u "") s) = None ->
     normalizar_precios df = Err ValueError
     \/ normalizar_precios df = Err OverflowError)
  /\ (forall col,
     get_column (u "precio_m2") df = Ok col -> numeric_column col = false ->
     exists out,
       precio_m2_column df = Ok out /\ length out = length col /\
       forall i s, col !! i = Some (VStr s) ->
         search precio_m2_pattern (str_replace (u ",") (u ".") s) = None ->
         out !! i = Some nan).
Proof.
  split.
  - intros col s Hcol Hin Hs.
    unfold normalizar_precios, precio_inmueble_column. rewrite Hcol. simpl.
    unfold str_accessor. rewrite (numeric_column_text col s Hin). simpl.
    destruct (mapM_raises
                (fun v => cell_int64 (cell_extract precio_inmueble_pattern
                                        (cell_replace (u ".") (u "") v)))
                col (fun e => e = ValueError \/ e = OverflowError))
      as (e & -> & He).
    + intros x e. apply cell_int64_errors.
    + exists (VStr s), ValueError. split; [done|].
      cbn [cell_replace cell_extract]. by rewrite Hs.
    + simpl. destruct He as [-> | ->]; auto.
  - intros col Hcol Hnum. unfold precio_m2_column. rewrite Hcol. simpl.
    unfold str_accessor. rewrite Hnum. simpl.
    destruct (mapM_total
                (fun v => cell_float64 (cell_extract precio_m2_pattern
                                          (cell_replace (u ",") (u ".") v)))
                col) as (out & -> & Hlen & Hout).
    + intros x _. apply precio_m2_cell_total.
    + exists out. split; [done|]. split; [done|].
      intros i s Hi Hs. destruct (Hout i _ Hi) as (y & Hy & ->).
      cbn [cell_replace cell_extract] in Hy. rewrite Hs in Hy.
      by injection Hy as <-.
Qed.
End PriceFacts.

Section Examples.
#[local] Existing Instance Latin1.latin1.

(** C1 fails as stated: a [precio_m2] that holds no number is turned into
    NaN and the batch is returned, no exception is raised. *)
Lemma precio_m2_silently_absent :
  normalizar_precios
    {| columns := price_columns;
       rows := [[VStr (u "150.000 €"); VFloat (FNum 150);
                 VStr (u "A consultar")]] |}
  = Ok {| columns := price_columns;
          rows := [[VInt 150000; VFloat (FNum 150000); nan]] |}.
Proof. vm_compute. reflexivity. Qed.

(** C2: on the row with [precio_inmueble] "150.000 €", [price] 150.0 and
    [precio_m2] "1.250,50 €/m²", [normalizar_precios] gives the integer
    150000 and the float 150000.0, but for [precio_m2] the float 1.25: the
    comma becomes a full stop, and the number read from "1.250.50 €/m²"
    stops before the second full stop. *)
Theorem precio_m2_thousands_separator :
  normalizar_precios
    {| columns := price_columns;
       rows := [[VStr (u "150.000 €"); VFloat (FNum 150);
                 VStr (u "1.250,50 €/m²")]] |}
  = Ok {| columns := price_columns;
          rows := [[VInt 150000; VFloat (FNum 150000);
                    VFloat (FNum (1250 # 1000))]] |}
  /\ (1250 # 1000 == 5 # 4)%Q /\ ~ (1250 # 1000 == 2501 # 2)%Q.
Proof. split; [vm_compute; reflexivity|]. split; [reflexivity | discriminate]. Qed.

Lemma precios_without_match_witness :
  let df := {| columns := price_columns;
               rows := [[VStr (u "A consultar"); VFloat (FNum 150);
                         VStr (u "A consultar")]] |} in
  (normalizar_precios df = Err ValueError
   \/ normalizar_precios df = Err OverflowError)
  /\ exists out, precio_m2_column df = Ok out /\ out !! O = Some nan.
Proof.
  intros df. destruct (precios_without_match df) as [H1 H2]. split.
  - apply (H1 [VStr (u "A consultar")] (u "A consultar")).
    + reflexivity.
    + apply list_elem_of_here.
    + reflexivity.
  - destruct (H2 [VStr (u "A consultar")] eq_refl eq_refl)
      as (out & Ho & _ & Hn).
    exists out. split; [done|]. apply (Hn O (u "A consultar")); reflexivity.
Defined.
End Examples.

(** ** [normalize_dataframe] and the heap *)

Section HeapFacts.
Context `{R : PyRuntime}.

(** The heap seen from a base [h]: [h ++ ext], [ext] holding the objects
    made since. *)
Lemma alloc_ext (h ext : heap) (df : DataFrame) :
  alloc df (h ++ ext) = (Ok (length h + length ext)%nat, h ++ (ext ++ [df])).
Proof. unfold alloc. by rewrite length_app, app_assoc. Qed.

Lemma load_base (h ext : heap) (l : ref) (d : DataFrame) :
  h !! l = Some d -> load l (h ++ ext) = (Ok d, h ++ ext).
Proof. intros Hl. unfold load. by rewrite (lookup_app_l_Some _ _ _ _ Hl). Qed.

Lemma load_ext (h ext : heap) (k : nat) (d : DataFrame) :
  ext !! k = Some d -> load (length h + k)%nat (h ++ ext) = (Ok d, h ++ ext).
Proof.
  intros Hl. unfold load.
  by rewrite lookup_app_r, Nat.add_comm, Nat.add_sub, Hl by lia.
Qed.

Lemma store_ext (h ext : heap) (k : nat) (d : DataFrame) :
  store (length h + k)%nat d (h ++ ext) = (Ok tt, h ++ <[k := d]> ext).
Proof. unfold store. by rewrite insert_app_r. Qed.

(** A call on an object with the frame [d] only adds objects to the heap,
    and its outcome is [normalized_batch d]: a function of [d] alone. *)
Lemma normalize_dataframe_run (self : NormalizarDataFrame) (h : heap)
    (d : DataFrame) :
  h !! dataframe self = Some d ->
  exists ext,
    (normalize_dataframe self h).2 = h ++ ext /\
    observe (normalize_dataframe self h).1 (h ++ ext)
    = Some (normalized_batch d).
Proof.
  intros Hd.
  cut (exists ext,
         (normalize_dataframe self (h ++ [])).2 = h ++ ext /\
         observe (normalize_dataframe self (h ++ [])).1 (h ++ ext)
         = Some (normalized_batch d)).
  { by rewrite app_nil_r. }
  unfold normalize_dataframe, normalized_batch.
  unfold df_getitem, series_apply, df_drop, pd_concat_axis1,
    df_rename_inplace, normalizar_precios_obj, bindM, lift, ret.
  rewrite (load_base h [] _ d Hd).
  destruct (get_column (u "info_features") d) as [c1|e]; [|by eexists].
  cbn [bind].
  destruct (apply_expand info_features_of _ c1) as [f1|e]; [|by eexists].
  cbn [bind]. rewrite alloc_ext, (load_base h _ _ d Hd).
  destruct (get_column (u "certificado_energetico") d) as [c2|e]; [|by eexists].
  cbn [bind].
  destruct (apply_expand extract_certificado_energetico _ c2) as [f2|e];
    [|by eexists].
  cbn [bind]. rewrite alloc_ext, (load_base h _ _ d Hd).
  destruct (get_column (u "caracteristicas_basicas") d) as [c3|e];
    [|by eexists].
  cbn [bind].
  destruct (apply_expand caracteristicas_basicas_of _ c3) as [f3|e];
    [|by eexists].
  cbn [bind]. rewrite alloc_ext, (load_base h _ _ d Hd).
  destruct (drop_columns raw_columns d) as [d0|e]; [|by eexists].
  cbn [bind]. rewrite alloc_ext. cbn [app length loadM bindM].
  unfold bindM, ret.
  rewrite (load_ext h [f1; f2; f3; d0] 3%nat d0 eq_refl). cbn beta iota.
  rewrite (load_ext h [f1; f2; f3; d0] 0%nat f1 eq_refl). cbn beta iota.
  rewrite (load_ext h [f1; f2; f3; d0] 1%nat f2 eq_refl). cbn beta iota.
  rewrite (load_ext h [f1; f2; f3; d0] 2%nat f3 eq_refl). cbn beta iota.
  rewrite alloc_ext. cbn [app length]. cbn beta iota.
  set (cat := foldl concat_columns d0 [f1; f2; f3]).
  rewrite (load_ext h [f1; f2; f3; d0; cat] 4%nat cat eq_refl). cbn beta iota.
  rewrite store_ext. cbn [list_insert insert]. cbn beta iota.
  rewrite (load_ext h [f1; f2; f3; d0; rename_columns price_headers cat]
             4%nat (rename_columns price_headers cat) eq_refl).
  cbn beta iota.
  destruct (normalizar_precios _) as [out|e]; [|by eexists].
  rewrite alloc_ext. cbn [app length]. eexists. split; [reflexivity|].
  cbn [fst observe]. rewrite lookup_app_r by lia.
  by rewrite Nat.add_comm, Nat.add_sub.
Qed.

Lemma normalize_dataframe_dangling (self : NormalizarDataFrame) (h : heap) :
  h !! dataframe self = None ->
  normalize_dataframe self h = (Err AttributeError, h).
Proof.
  intros Hd. unfold normalize_dataframe, df_getitem, bindM, load.
  by rewrite Hd.
Qed.

(** C9: after [normalize_dataframe] has returned or raised, the frame behind
    [self.dataframe] is the frame that was there before, columns and cells,
    and so is every other object that existed before the call. *)
Theorem input_batch_unchanged (self : NormalizarDataFrame) (h : heap) :
  let h' := (normalize_dataframe self h).2 in
  h' !! dataframe self = h !! dataframe self
  /\ forall l d, h !! l = Some d -> h' !! l = Some d.
Proof.
  intros h'. subst h'.
  destruct (h !! dataframe self) as [d|] eqn:Hd.
  - destruct (normalize_dataframe_run self h d Hd) as (ext & -> & _).
    split; [by apply lookup_app_l_Some|].
    intros l d' Hl. by apply lookup_app_l_Some.
  - rewrite (normalize_dataframe_dangling self h Hd). done.
Qed.

(** C5: two calls of [normalize_dataframe] on the same object, one after the
    other, give the same outcome: equal frames behind the two references
    returned, or the same exception; the frame the first call returned is
    still the same after the second call. *)
Theorem normalize_dataframe_twice (self : NormalizarDataFrame) (h : heap) :
  let first := normalize_dataframe self h in
  let second := normalize_dataframe self first.2 in
  exists out,
    observe first.1 first.2 = Some out
    /\ observe second.1 second.2 = Some out
    /\ observe first.1 second.2 = Some out.
Proof.
  intros first second. subst first second.
  destruct (h !! dataframe self) as [d|] eqn:Hd.
  - destruct (normalize_dataframe_run self h d Hd) as (ext & Hh & Hobs).
    rewrite Hh in *.
    assert (Hd' : (h ++ ext) !! dataframe self = Some d)
      by by apply lookup_app_l_Some.
    destruct (normalize_dataframe_run self (h ++ ext) d Hd')
      as (ext' & Hh' & Hobs').
    rewrite Hh'. exists (normalized_batch d). split; [done|]. split; [done|].
    destruct (normalize_dataframe self h).1 as [l|e]; [|done].
    simpl in *. destruct ((h ++ ext) !! l) as [x|] eqn:Hl; [|done].
    by rewrite (lookup_app_l_Some _ _ _ _ Hl).
  - rewrite (normalize_dataframe_dangling self h Hd). simpl.
    rewrite (normalize_dataframe_dangling self h Hd). simpl.
    by exists (Err AttributeError).
Qed.
End HeapFacts.

(** The listing [raw_listing], normalised: the call returns a new frame, the
    seventh object of the heap, and the raw frame is untouched, with its
    three composite columns and its two price headers. *)
Example normalize_raw_listing :
  let out := normalize_dataframe (H := Latin1.latin1) {| dataframe := 0 |}
               [raw_listing] in
  out.1 = Ok 6%nat
  /\ out.2 !! 0%nat = Some raw_listing
  /\ (take 4 ∘ columns <$> out.2 !! 6%nat)
     = Some [u "title"; u "price"; u "precio_inmueble"; u "precio_m2"]
  /\ (rows <$> out.2 !! 6%nat)
     = Some [[VStr (u "Piso en venta");
              VFloat (FNum (150000000 # 1000)); VInt 150000;
              VFloat (FNum (1667 # 1000));
              VInt 90; VInt 3; VBool false; VInt 2; VBool true;
              VNone; VNone; VNone; VNone;
              VInt 95; VNone; VNone; VNone; VNone; VBool true; VBool false;
              VBool false; VBool false; VBool false; VNone; VBool false;
              VBool false; VNone; VBool false; VNone; VNone]].
Proof. vm_compute. repeat split. Qed.

(** ** The parquet store *)

Section StoreFacts.
Context `{S : Storage}.

Lemma concat_rows_ok (a b : DataFrame) :
  NoDup (columns a) -> NoDup (columns b) ->
  exists ab,
    concat_rows a b = Ok ab
    /\ length (rows ab) = (length (rows a) + length (rows b))%nat
    /\ (columns a = columns b -> rows ab = rows a ++ rows b)
    /\ (columns a <> columns b ->
        rows ab = map (reindex_row (columns a) (columns ab)) (rows a)
                  ++ map (reindex_row (columns b) (columns ab)) (rows b)).
Proof.
  intros Ha Hb. unfold concat_rows. case_bool_decide as Heq.
  - eexists. split; [reflexivity|]. simpl. rewrite length_app. done.
  - rewrite !bool_decide_eq_true_2 by done. simpl.
    eexists. split; [reflexivity|]. simpl.
    rewrite length_app, !length_map. done.
Qed.

(** C4: when nothing exists at the target path and the storage does not
    fail, saving [A], then [B] with [replace] true, leaves at the path the
    concatenation of [A] and [B]: as many rows as [A] and [B] together, the
    rows of [B] after the rows of [A] (laid out on the union of the columns
    when the columns differ); saving [C] afterwards with [replace] false
    leaves [C] alone there. *)
Theorem save_merges_then_overwrites (A B C : DataFrame) (dest name : text)
    (replace0 : bool) (fs : files) :
  let p := os_path_join dest (parquet_name name) in
  fs !! p = None ->
  makedirs_error dest = None ->
  read_error p = None ->
  write_error p A = None ->
  (forall AB, concat_rows A B = Ok AB -> write_error p AB = None) ->
  write_error p C = None ->
  NoDup (columns A) -> NoDup (columns B) ->
  exists fs1 fs2 fs3 AB,
    save_df_to_parquet A dest name replace0 fs = Ok fs1
    /\ save_df_to_parquet B dest name true fs1 = Ok fs2
    /\ fs2 !! p = Some AB
    /\ concat_rows A B = Ok AB
    /\ length (rows AB) = (length (rows A) + length (rows B))%nat
    /\ (columns A = columns B -> rows AB = rows A ++ rows B)
    /\ (columns A <> columns B ->
        rows AB = map (reindex_row (columns A) (columns AB)) (rows A)
                  ++ map (reindex_row (columns B) (columns AB)) (rows B))
    /\ save_df_to_parquet C dest name false fs2 = Ok fs3
    /\ fs3 !! p = Some C.
Proof.
  intros p Hfresh Hmk Hrd HwA HwAB HwC HA HB.
  destruct (concat_rows_ok A B HA HB) as (AB & Hcat & Hlen & Hsame & Hdiff).
  specialize (HwAB AB Hcat).
  exists (<[p := A]> fs), (<[p := AB]> (<[p := A]> fs)),
    (<[p := C]> (<[p := AB]> (<[p := A]> fs))), AB.
  unfold save_df_to_parquet, os_path_exists, os_makedirs, to_parquet,
    read_parquet. fold p.
  rewrite Hfresh, Hmk, Hrd, HwA, HwC, !lookup_insert_eq.
  rewrite bool_decide_eq_false_2 by (intros [? ?]; done).
  rewrite !bool_decide_eq_true_2 by eauto.
  simpl. rewrite Hcat. simpl. rewrite HwAB.
  repeat split; done.
Qed.

End StoreFacts.

Section StoreExamples.
#[local] Existing Instance reliable.

(** C8: the name "datos.parquet.bak" does not end in ".parquet" but holds
    it, so the function takes it as it is: the frame is written to
    "out/datos.parquet.bak". *)
Theorem parquet_name_substring :
  parquet_name (u "datos.parquet.bak") = u "datos.parquet.bak"
  /\ os_path_join (u "out") (parquet_name (u "datos.parquet.bak"))
     = u "out/datos.parquet.bak"
  /\ ends_with (u ".parquet")
       (os_path_join (u "out") (parquet_name (u "datos.parquet.bak")))
     = false
  /\ forall df,
       save_df_to_parquet df (u "out") (u "datos.parquet.bak") false ∅
       = Ok {[ u "out/datos.parquet.bak" := df ]}.
Proof.
  split; [reflexivity|]. split; [reflexivity|]. split; [reflexivity|].
  intros df. reflexivity.
Qed.

Lemma save_merges_then_overwrites_witness :
  let A := frame1 [u "title"] [VStr (u "a")] in
  let B := frame1 [u "title"; u "ref"] [VStr (u "b"); VInt 7] in
  let C := frame1 [u "ref"] [VInt 8] in
  let p := u "out/pisos.parquet" in
  exists fs1 fs2 fs3 AB,
    save_df_to_parquet A (u "out") (u "pisos") false ∅ = Ok fs1
    /\ save_df_to_parquet B (u "out") (u "pisos") true fs1 = Ok fs2
    /\ fs2 !! p = Some AB
    /\ length (rows AB) = 2%nat
    /\ save_df_to_parquet C (u "out") (u "pisos") false fs2 = Ok fs3
    /\ fs3 !! p = Some C.
Proof.
  intros A B C p.
  destruct (save_merges_then_overwrites (S := reliable) A B C
              (u "out") (u "pisos") false ∅)
    as (fs1 & fs2 & fs3 & AB & H1 & H2 & H3 & _ & H5 & _ & _ & H8 & H9).
  - reflexivity.
  - reflexivity.
  - reflexivity.
  - reflexivity.
  - reflexivity.
  - reflexivity.
  - apply (bool_decide_unpack _). vm_compute. exact I.
  - apply (bool_decide_unpack _). vm_compute. exact I.
  - exists fs1, fs2, fs3, AB. repeat split; assumption.
Defined.

(** Without ".parquet" anywhere in it, the name gets the extension. *)
Lemma parquet_name_appends (name : text) :
  contains (u ".parquet") name = false ->
  parquet_name name = name ++ u ".parquet".
Proof. intros Hc. unfold parquet_name. by rewrite Hc. Qed.

(** With ".parquet" somewhere in it, the name is taken as it is. *)
Lemma parquet_name_keeps (name : text) :
  contains (u ".parquet") name = true -> parquet_name name = name.
Proof. intros Hc. unfold parquet_name. by rewrite Hc. Qed.

End StoreExamples.

(** * Further properties *)

(** ** The extractors *)

Section MoreExtractorFacts.
Context `{R : PyRuntime}.

(** X1: whenever [extract_info_features] returns, [garaje] is [True]
    exactly when the lowercased joined text holds "garaje incluido" or
    "con garaje"; it fails to return on a list of strings only with the
    [ValueError] of [int] on a numeral beyond its limit. *)
Theorem garaje_flag (info : list text) :
  let t := str_lower (str_join (u " ") info) in
  match extract_info_features info with
  | Ok r =>
      garaje r
      = contains (u "garaje incluido") t || contains (u "con garaje") t
  | Err e => e = ValueError /\ exceeds_cap (length t) = true
  end.
Proof.
  intros t.
  destruct (extract_info_features_cases info)
    as [(r & -> & Hg & _) | [-> Hc]]; done.
Qed.

Lemma digits_value_nonneg (w : text) (acc z : Z) :
  0 <= acc -> digits_value acc w = Some z -> 0 <= z.
Proof.
  revert acc. induction w as [|c w IH]; intros acc Hacc; simpl.
  - by intros [= <-].
  - destruct (decimal_digit c) as [d|]; [|done]. apply IH. lia.
Qed.

Lemma int_of_digits_nonneg (w : text) (z : Z) :
  int_of_digits w = Some z -> 0 <= z.
Proof.
  unfold int_of_digits. destruct w as [|c w]; [done|].
  destruct (exceeds_cap _); [done|]. by apply digits_value_nonneg.
Qed.

Lemma int_group_nonneg (m : option match_obj) (z : Z) :
  int_group m = Ok (Some z) -> 0 <= z.
Proof.
  destruct m as [[w|]|]; simpl; try done.
  destruct (int_of_digits w) as [z'|] eqn:Hz; [|done].
  intros [= <-]. by apply (int_of_digits_nonneg w).
Qed.

(** X2: the numbers [extract_info_features] returns are never negative:
    a sign in front of the digits is not part of any pattern.  It fails to
    return on a list of strings only with the [ValueError] of [int] on a
    numeral beyond its limit. *)
Theorem info_numbers_not_negative (info : list text) :
  match extract_info_features info with
  | Ok r =>
      absent_or_natural (superficie_m2 r)
      /\ absent_or_natural (habitaciones r)
      /\ absent_or_natural (planta r)
  | Err e =>
      e = ValueError
      /\ exceeds_cap (length (str_lower (str_join (u " ") info))) = true
  end.
Proof.
  destruct (extract_info_features_cases info)
    as [(r & -> & _ & _ & H1 & H2 & H3) | [-> Hc]]; [|done].
  repeat split; intros z Hz; rewrite Hz in *;
    eapply int_group_nonneg; eassumption.
Qed.

(** X3: the same for the seven numbers of
    [extract_caracteristicas_basicas]. *)
Theorem basicas_numbers_not_negative (l : list text) :
  match extract_caracteristicas_basicas l with
  | Ok r =>
      absent_or_natural (caracteristicas_basicas_superficie_m2 r)
      /\ absent_or_natural (superficie_util_m2 r)
      /\ absent_or_natural (caracteristicas_basicas_habitaciones r)
      /\ absent_or_natural (caracteristicas_basicas_banos r)
      /\ absent_or_natural (parcela_m2 r)
      /\ absent_or_natural (construccion r)
      /\ absent_or_natural (plantas r)
  | Err e =>
      e = ValueError
      /\ exceeds_cap (length (str_lower (str_join (u " ") l))) = true
  end.
Proof.
  destruct (extract_caracteristicas_basicas_cases l)
    as [(r & -> & _ & (H1 & H2 & H3 & H4 & H5 & H6 & H7) & _) | [-> Hc]];
    [|done].
  repeat split; intros z Hz; rewrite Hz in *;
    eapply int_group_nonneg; eassumption.
Qed.

End MoreExtractorFacts.

(** ** The energy certificate *)

Lemma mapM_app {A B} (f : A -> result B) (a b : list A) :
  mapM f (a ++ b)
  = let! x := mapM f a in let! y := mapM f b in Ok (x ++ y).
Proof.
  induction a as [|x a IH]; simpl.
  - by destruct (mapM f b).
  - destruct (f x); simpl; [|done]. rewrite IH.
    destruct (mapM f a); simpl; [|done]. by destruct (mapM f b).
Qed.

Lemma mapM_dicts (ds : list dict) :
  mapM (fun item => let! d := dict_items item in Ok (filter_item d))
       (map VDict ds)
  = Ok (map filter_item ds).
Proof. induction ds as [|d ds IH]; simpl; [done|]. by rewrite IH. Qed.

Lemma energy_loop_app (a b : list dict) (c e : value * value) :
  energy_loop (a ++ b) c e
  = let! ce := energy_loop a c e in energy_loop b ce.1 ce.2.
Proof.
  revert c e. induction a as [|item a IH]; intros c e; simpl; [done|].
  destruct (energy_update _ item c); simpl; [|done].
  destruct (energy_update _ item e); simpl; [|done]. apply IH.
Qed.

Lemma dict_set_elem (k : text) (v : value) (d : dict) (kv : text * value) :
  kv ∈ dict_set k v d -> kv = (k, v) \/ kv ∈ d.
Proof.
  induction d as [|[k' v'] d IH]; simpl.
  - intros Hin. apply list_elem_of_singleton in Hin. by left.
  - unfold text_eqb. case_bool_decide.
    + intros Hin. apply elem_of_cons in Hin as [-> | Hin]; [by left|].
      right. by right.
    + intros Hin. apply elem_of_cons in Hin as [-> | Hin].
      * right. by left.
      * destruct (IH Hin) as [-> | ?]; [by left|]. right. by right.
Qed.

Lemma filter_item_elem (d : dict) (kv : text * value) :
  kv ∈ filter_item d ->
  kv.1 ∈ energy_keys /\ is_none kv.2 = false /\ kv ∈ d.
Proof.
  unfold filter_item.
  assert (forall acc,
            (forall x, x ∈ acc ->
               x.1 ∈ energy_keys /\ is_none x.2 = false) ->
            kv ∈ foldl (fun acc kv =>
                          if bool_decide (kv.1 ∈ energy_keys)
                             && negb (is_none kv.2)
                          then dict_set kv.1 kv.2 acc else acc) acc d ->
            kv.1 ∈ energy_keys /\ is_none kv.2 = false
            /\ (kv ∈ acc \/ kv ∈ d)) as Hgen.
  { induction d as [|x d IH]; intros acc Hacc; simpl.
    - intros Hin. destruct (Hacc kv Hin). auto.
    - destruct (bool_decide (x.1 ∈ energy_keys) && negb (is_none x.2))
        eqn:Hx.
      + intros Hin. apply IH in Hin as (H1 & H2 & [Hin | Hin]).
        * split; [done|]. split; [done|].
          apply dict_set_elem in Hin as [-> | Hin]; [|by left].
          right. destruct x. by left.
        * split; [done|]. split; [done|]. right. by right.
        * intros y Hy. apply dict_set_elem in Hy as [-> | Hy]; [|by apply Hacc].
          apply andb_true_iff in Hx as [Hk Hv]. simpl.
          split; [by apply bool_decide_eq_true in Hk|].
          by apply negb_true_iff.
      + intros Hin. apply IH in Hin as (H1 & H2 & [Hin | Hin]); [| |done].
        * split; [done|]. split; [done|]. by left.
        * split; [done|]. split; [done|]. right. by right. }
  intros Hin. apply (Hgen []) in Hin as (H1 & H2 & [Hin | Hin]).
  - by apply elem_of_nil in Hin.
  - done.
  - intros x Hx. by apply elem_of_nil in Hx.
Qed.

(** X4: on a list of dicts [filter_energy_data] returns one dict per item,
    and a filtered dict holds only bindings of the item it comes from,
    with the label "Consumo:" or "Emisiones:" and a value that is not
    [None]. *)
Theorem filter_energy_data_keeps (ds : list dict) :
  exists out,
    filter_energy_data (VList (map VDict ds)) = Ok out
    /\ length out = length ds
    /\ forall i d f kv, ds !! i = Some d -> out !! i = Some f -> kv ∈ f ->
         kv.1 ∈ energy_keys /\ kv.2 <> VNone /\ kv ∈ d.
Proof.
  exists (map filter_item ds). unfold filter_energy_data. simpl.
  split; [apply mapM_dicts|]. split; [by rewrite length_map|].
  intros i d f kv Hd Hf Hin. rewrite list_lookup_fmap, Hd in Hf.
  injection Hf as <-. apply filter_item_elem in Hin as (H1 & H2 & H3).
  split; [done|]. split; [|done]. intros Hv. by rewrite Hv in H2.
Qed.

Lemma dict_get_elem (k : text) (v : value) (d : dict) :
  dict_get k d = Some v -> (k, v) ∈ d.
Proof.
  induction d as [|[k' v'] d IH]; simpl; [done|].
  unfold text_eqb. case_bool_decide as Hk.
  - intros [= ->]. subst. by left.
  - intros Hg. right. auto.
Qed.

(** An item without a usable array under [key] leaves the variables as
    they are. *)
Lemma energy_update_skip (key : text) (item : dict) (cur : value * value) :
  (forall a, (key, VArray a) ∉ item) -> energy_update key item cur = Ok cur.
Proof.
  intros Hno. unfold energy_update.
  destruct (dict_get key item) as [x|] eqn:Hg; [|done].
  destruct (is_none x); [done|].
  destruct x; try done. apply dict_get_elem in Hg. by destruct (Hno l).
Qed.

(** The outcome of [extract_certificado_energetico] on a list of dicts, by
    way of the loop. *)
Lemma extract_certificado_dicts (ds : list dict) :
  extract_certificado_energetico (VList (map VDict ds))
  = let! vars := energy_loop (map filter_item ds) (VNone, VNone)
                   (VNone, VNone) in
    Ok [ (u "consumo_energetico_valor", vars.1.1);
         (u "consumo_energetico_icono", vars.1.2);
         (u "emisiones_valor", vars.2.1);
         (u "emisiones_icono", vars.2.2) ].
Proof.
  unfold extract_certificado_energetico, filter_energy_data. simpl.
  by rewrite mapM_dicts.
Qed.

(** X5: an entry with neither label changes nothing: the certificate read
    from a list of dicts is the one read from the list without it. *)
Theorem other_labels_ignored (pre post : list dict) (e : dict) :
  (forall kv, kv ∈ e -> kv.1 ∉ energy_keys) ->
  extract_certificado_energetico (VList (map VDict (pre ++ e :: post)))
  = extract_certificado_energetico (VList (map VDict (pre ++ post))).
Proof.
  intros He. rewrite !extract_certificado_dicts, !map_app, !energy_loop_app.
  destruct (energy_loop (map filter_item pre) _ _) as [[c em]|]; [|done].
  cbn [bind map energy_loop].
  assert (Hskip : forall key cur,
            energy_update key (filter_item e) cur = Ok cur).
  { intros key cur. apply energy_update_skip. intros a Hin.
    apply filter_item_elem in Hin as (Hk & _ & Hin). by apply (He _ Hin). }
  by rewrite !Hskip.
Qed.

Lemma other_labels_ignored_witness :
  (forall kv, kv ∈ [(u "Otro:", VArray [VStr (u "X"); VStr (u "Y")])] ->
     kv.1 ∉ energy_keys)
  /\ extract_certificado_energetico
       (VList (map VDict
                 ([[(u "Consumo:", VArray [VStr (u "A"); VStr (u "a")])]]
                  ++ [(u "Otro:", VArray [VStr (u "X"); VStr (u "Y")])]
                     :: [])))
     = extract_certificado_energetico
         (VList (map VDict
                   ([[(u "Consumo:", VArray [VStr (u "A"); VStr (u "a")])]]
                    ++ []))).
Proof.
  assert (H : forall kv,
            kv ∈ [(u "Otro:", VArray [VStr (u "X"); VStr (u "Y")])] ->
            kv.1 ∉ energy_keys).
  { intros kv Hin. apply list_elem_of_singleton in Hin as ->.
    apply (bool_decide_unpack _). vm_compute. exact I. }
  split; [exact H|]. exact (other_labels_ignored _ _ _ H).
Defined.

Lemma energy_loop_skip (items : list dict) (c e : value * value) :
  (forall item key a, item ∈ items -> (key, VArray a) ∉ item) ->
  energy_loop items c e = Ok (c, e).
Proof.
  induction items as [|item items IH]; intros Hno; simpl; [done|].
  rewrite !energy_update_skip by (intros a; apply Hno; by left).
  simpl. apply IH. intros item' key a Hin. apply Hno. by right.
Qed.

(** X6: when no value of any entry is a numpy array (the scraper builds
    Python lists), the four fields are [None], whatever the entries say. *)
Theorem certificado_without_arrays (ds : list dict) :
  (forall d kv, d ∈ ds -> kv ∈ d -> is_array kv.2 = false) ->
  extract_certificado_energetico (VList (map VDict ds))
  = Ok [ (u "consumo_energetico_valor", VNone);
         (u "consumo_energetico_icono", VNone);
         (u "emisiones_valor", VNone);
         (u "emisiones_icono", VNone) ].
Proof.
  intros Hno. rewrite extract_certificado_dicts, energy_loop_skip; [done|].
  intros item key a Hitem Hin.
  apply list_elem_of_fmap in Hitem as (d & -> & Hd).
  apply filter_item_elem in Hin as (_ & _ & Hin).
  by specialize (Hno d _ Hd Hin).
Qed.

Lemma certificado_without_arrays_witness :
  let ds := [[(u "Consumo:", VList [VStr (u "A"); VStr (u "icon-a")])];
             [(u "Emisiones:", VStr (u "B"))]] in
  (forall d kv, d ∈ ds -> kv ∈ d -> is_array kv.2 = false)
  /\ extract_certificado_energetico (VList (map VDict ds))
     = Ok [ (u "consumo_energetico_valor", VNone);
            (u "consumo_energetico_icono", VNone);
            (u "emisiones_valor", VNone);
            (u "emisiones_icono", VNone) ].
Proof.
  intros ds.
  assert (H : forall d kv, d ∈ ds -> kv ∈ d -> is_array kv.2 = false).
  { intros d kv Hd Hkv. subst ds.
    repeat (apply elem_of_cons in Hd as [-> | Hd]);
      [| |by apply elem_of_nil in Hd];
      apply list_elem_of_singleton in Hkv as ->; reflexivity. }
  split; [exact H|]. exact (certificado_without_arrays ds H).
Defined.

(** X7: entries are read in order and a later entry wins: after any list
    of dicts, one more entry "Consumo:" with the array of a value and an
    icon sets each of the two fields whose text is not empty, and leaves
    the other fields as the list before it gave them. *)
Theorem later_consumo_wins (ds : list dict) (v i : text) (a b c d : value) :
  extract_certificado_energetico (VList (map VDict ds))
  = Ok [ (u "consumo_energetico_valor", a);
         (u "consumo_energetico_icono", b);
         (u "emisiones_valor", c);
         (u "emisiones_icono", d) ] ->
  extract_certificado_energetico
    (VList (map VDict (ds ++ [[(u "Consumo:", VArray [VStr v; VStr i])]])))
  = Ok [ (u "consumo_energetico_valor", unless_empty v a);
         (u "consumo_energetico_icono", unless_empty i b);
         (u "emisiones_valor", c);
         (u "emisiones_icono", d) ].
Proof.
  rewrite !extract_certificado_dicts, map_app, energy_loop_app.
  destruct (energy_loop (map filter_item ds) _ _) as [[[a' b'] [c' d']]|];
    [|done].
  cbn [bind fst snd]. intros [= -> -> -> ->].
  change (map filter_item [[(u "Consumo:", VArray [VStr v; VStr i])]])
    with [[(u "Consumo:", VArray [VStr v; VStr i])]].
  cbn [energy_loop].
  change (energy_update (u "Consumo:")
            [(u "Consumo:", VArray [VStr v; VStr i])] (a, b))
    with (Ok (if negb (bool_decide (v = [])) then VStr v else a,
              if negb (bool_decide (i = [])) then VStr i else b)).
  cbn [bind].
  change (energy_update (u "Emisiones:")
            [(u "Consumo:", VArray [VStr v; VStr i])] (c, d))
    with (@Ok (value * value) (c, d)).
  cbn [bind energy_loop fst snd]. unfold unless_empty.
  by repeat case_bool_decide.
Qed.

Lemma later_consumo_wins_witness :
  extract_certificado_energetico
    (VList (map VDict
       ([[(u "Consumo:", VArray [VStr (u "A"); VStr (u "icon-a")])]]
        ++ [[(u "Consumo:", VArray [VStr (u ""); VStr (u "icon-b")])]])))
  = Ok [ (u "consumo_energetico_valor", VStr (u "A"));
         (u "consumo_energetico_icono", VStr (u "icon-b"));
         (u "emisiones_valor", VNone);
         (u "emisiones_icono", VNone) ].
Proof.
  exact (later_consumo_wins
           [[(u "Consumo:", VArray [VStr (u "A"); VStr (u "icon-a")])]]
           (u "") (u "icon-b") (VStr (u "A")) (VStr (u "icon-a")) VNone VNone
           eq_refl).
Defined.

(** X8: on a list of dicts whose first entry binds "Consumo:" to an array
    of fewer than two elements the extraction raises, whatever follows:
    [IndexError], or, when the one element is itself an array without a
    truth value, the [ValueError] of its truth test. *)
Theorem short_array_raises (a : list value) (ds : list dict) :
  (length a < 2)%nat ->
  extract_certificado_energetico
    (VList (map VDict ([(u "Consumo:", VArray a)] :: ds)))
  = Err (short_array_error a).
Proof.
  intros Hlen. rewrite extract_certificado_dicts. cbn [map].
  change (filter_item [(u "Consumo:", VArray a)])
    with [(u "Consumo:", VArray a)].
  cbn [energy_loop].
  replace (energy_update (u "Consumo:") [(u "Consumo:", VArray a)]
             (VNone, VNone))
    with (@Err (value * value) (short_array_error a)); [done|].
  change (energy_update (u "Consumo:") [(u "Consumo:", VArray a)]
            (VNone, VNone))
    with (let! x0 := array_item a 0 in
          let! t0 := truthy x0 in
          let valor := if t0 then x0 else VNone in
          let! x1 := array_item a 1 in
          let! t1 := truthy x1 in
          let icono := if t1 then x1 else VNone in
          Ok (valor, icono)).
  destruct a as [|x [|y a]]; [done| |simpl in Hlen; lia].
  unfold array_item, short_array_error. simpl. by destruct (truthy x).
Qed.

Lemma short_array_raises_witness :
  (length [VArray [VStr (u "A"); VStr (u "B")]] < 2)%nat
  /\ extract_certificado_energetico
       (VList (map VDict
                 ([(u "Consumo:", VArray [VArray [VStr (u "A"); VStr (u "B")]])]
                  :: [[(u "Emisiones:", VArray [VStr (u "C")])]])))
     = Err ValueError.
Proof.
  assert (H1 : (length [VArray [VStr (u "A"); VStr (u "B")]] < 2)%nat)
    by (simpl; lia).
  split; [exact H1|].
  exact (short_array_raises _ [[(u "Emisiones:", VArray [VStr (u "C")])]] H1).
Defined.

(** ** Price normalisation, further *)

Lemma col_index_None (name : text) (cols : list text) :
  col_index name cols = None <-> name ∉ cols.
Proof.
  induction cols as [|c cols IH]; simpl.
  - split; [intros _; apply not_elem_of_nil | done].
  - unfold text_eqb. case_bool_decide as Hc.
    + split; [done|]. intros Hn. destruct Hn. subst. by left.
    + destruct (col_index name cols); simpl.
      * split; [done|]. intros Hn. destruct IH as [_ IH].
        exfalso. assert (name ∉ cols) as Hn' by (intros ?; apply Hn; by right).
        by specialize (IH Hn').
      * split; [|done]. intros _ Hin.
        apply elem_of_cons in Hin as [-> | Hin]; [done|].
        by apply (proj1 IH).
Qed.

Lemma col_index_Some (name : text) (cols : list text) (i : nat) :
  col_index name cols = Some i -> cols !! i = Some name.
Proof.
  revert i. induction cols as [|c cols IH]; intros i; simpl; [done|].
  unfold text_eqb. case_bool_decide as Hc.
  - intros [= <-]. by subst.
  - destruct (col_index name cols) as [j|]; simpl; [|done].
    intros [= <-]. by apply IH.
Qed.

Lemma get_column_Ok (name : text) (df : DataFrame) (col : list value) :
  get_column name df = Ok col ->
  name ∈ columns df /\ length col = length (rows df).
Proof.
  unfold get_column. destruct (col_index name (columns df)) as [i|] eqn:Hi.
  - intros [= <-]. split; [|by rewrite length_map].
    apply col_index_Some in Hi. by eapply list_elem_of_lookup_2.
  - done.
Qed.

Lemma mapM_length {A B} (f : A -> result B) (l : list A) (out : list B) :
  mapM f l = Ok out -> length out = length l.
Proof.
  revert out. induction l as [|x l IH]; intros out; simpl.
  - by intros [= <-].
  - destruct (f x); simpl; [|done]. destruct (mapM f l); simpl; [|done].
    intros [= <-]. simpl. f_equal. by apply IH.
Qed.

Lemma mapM_elem {A B} (f : A -> result B) (l : list A) (out : list B) (y : B) :
  mapM f l = Ok out -> y ∈ out -> exists x, x ∈ l /\ f x = Ok y.
Proof.
  revert out. induction l as [|x l IH]; intros out; simpl.
  - intros [= <-] Hin. by apply elem_of_nil in Hin.
  - destruct (f x) as [y'|] eqn:Hx; simpl; [|done].
    destruct (mapM f l) as [ys|]; simpl; [|done].
    intros [= <-] Hin. apply elem_of_cons in Hin as [-> | Hin].
    + exists x. split; [by left | done].
    + destruct (IH ys eq_refl Hin) as (x' & Hx' & Hy).
      exists x'. split; [by right | done].
Qed.

(** Setting a column that exists keeps the labels, and the number of rows
    when the column is as long as the frame. *)
Lemma set_column_shape (name : text) (col : list value) (df : DataFrame) :
  name ∈ columns df -> length col = length (rows df) ->
  columns (set_column name col df) = columns df
  /\ length (rows (set_column name col df)) = length (rows df).
Proof.
  intros Hin Hlen. unfold set_column.
  destruct (col_index name (columns df)) as [i|] eqn:Hi.
  - simpl. split; [done|]. rewrite length_zip_with. lia.
  - apply col_index_None in Hi. done.
Qed.

Lemma zip_insert_other (i j : nat) (rs : list (list value)) (col : list value) :
  i <> j -> length col = length rs ->
  map (cell_at j) (zip_with (fun row v => <[i := v]> row) rs col)
  = map (cell_at j) rs.
Proof.
  intros Hij. revert col. induction rs as [|r rs IH]; intros [|v col] Hlen;
    simpl in *; try done.
  unfold cell_at at 1 3. rewrite list_lookup_insert_ne by done.
  f_equal. apply IH. lia.
Qed.

(** Setting a column leaves every other column as it was. *)
Lemma get_set_other (name other : text) (col : list value) (df : DataFrame) :
  name ∈ columns df -> other <> name -> length col = length (rows df) ->
  get_column other (set_column name col df) = get_column other df.
Proof.
  intros Hin Hne Hlen. unfold set_column, get_column.
  destruct (col_index name (columns df)) as [i|] eqn:Hi;
    [|by apply col_index_None in Hi].
  simpl. destruct (col_index other (columns df)) as [j|] eqn:Hj; [|done].
  f_equal. apply zip_insert_other; [|done].
  intros ->. apply col_index_Some in Hi, Hj. congruence.
Qed.

Section MorePriceFacts.
Context `{R : PyRuntime}.

(** X9: without a column [precio_inmueble] the call raises [KeyError] for
    that label, whatever the other columns hold. *)
Theorem precio_inmueble_missing (df : DataFrame) :
  u "precio_inmueble" ∉ columns df ->
  normalizar_precios df = Err (KeyError (u "precio_inmueble")).
Proof.
  intros Hno. apply col_index_None in Hno.
  unfold normalizar_precios, precio_inmueble_column, get_column.
  by rewrite Hno.
Qed.

(** The three conversions, when [normalizar_precios] returns. *)
Lemma normalizar_precios_steps (df out : DataFrame) :
  normalizar_precios df = Ok out ->
  exists c1 c2 c3,
    let x1 := set_column (u "precio_inmueble") c1 df in
    let x2 := set_column (u "price") c2 x1 in
    precio_inmueble_column df = Ok c1
    /\ price_column x1 = Ok c2
    /\ precio_m2_column x2 = Ok c3
    /\ out = set_column (u "precio_m2") c3 x2
    /\ u "precio_inmueble" ∈ columns df /\ length c1 = length (rows df)
    /\ u "price" ∈ columns x1 /\ length c2 = length (rows x1)
    /\ u "precio_m2" ∈ columns x2 /\ length c3 = length (rows x2).
Proof.
  unfold normalizar_precios.
  destruct (precio_inmueble_column df) as [c1|] eqn:H1; [|done].
  cbn [bind].
  destruct (price_column _) as [c2|] eqn:H2; [|done]. cbn [bind].
  destruct (precio_m2_column _) as [c3|] eqn:H3; [|done]. cbn [bind].
  intros [= <-]. exists c1, c2, c3. cbn zeta.
  split; [done|]. split; [done|]. split; [done|]. split; [done|].
  unfold precio_inmueble_column in H1.
  destruct (get_column _ df) as [g1|] eqn:G1; [|done]. cbn [bind] in H1.
  unfold str_accessor in H1. destruct (numeric_column g1); [done|].
  cbn [bind] in H1. apply mapM_length in H1.
  apply get_column_Ok in G1 as [? ?].
  unfold price_column in H2.
  destruct (get_column _ (set_column _ c1 df)) as [g2|] eqn:G2; [|done].
  cbn [bind] in H2. apply mapM_length in H2.
  apply get_column_Ok in G2 as [? ?].
  unfold precio_m2_column in H3.
  destruct (get_column _ (set_column _ c2 _)) as [g3|] eqn:G3; [|done].
  cbn [bind] in H3. unfold str_accessor in H3.
  destruct (numeric_column g3); [done|]. cbn [bind] in H3.
  apply mapM_length in H3. apply get_column_Ok in G3 as [? ?].
  repeat split; congruence.
Qed.

Lemma normalizar_precios_labels_rows (df out : DataFrame) :
  normalizar_precios df = Ok out ->
  columns out = columns df /\ length (rows out) = length (rows df).
Proof.
  intros Hok.
  destruct (normalizar_precios_steps df out Hok)
    as (c1 & c2 & c3 & _ & _ & _ & -> & I1 & L1 & I2 & L2 & I3 & L3).
  destruct (set_column_shape _ c1 df I1 L1) as [C1 R1].
  destruct (set_column_shape _ c2 _ I2 L2) as [C2 R2].
  destruct (set_column_shape _ c3 _ I3 L3) as [C3 R3].
  split; congruence.
Qed.

(** X10: when [normalizar_precios] returns, its input had the three price
    columns, and the frame returned has the labels of the input, in their
    order, and as many rows. *)
Theorem normalizar_precios_shape (df out : DataFrame) :
  normalizar_precios df = Ok out ->
  Forall (fun c => c ∈ columns df) price_columns
  /\ columns out = columns df
  /\ length (rows out) = length (rows df).
Proof.
  intros Hok. split; [|by apply normalizar_precios_labels_rows].
  destruct (normalizar_precios_steps df out Hok)
    as (c1 & c2 & c3 & _ & _ & _ & _ & I1 & L1 & I2 & L2 & I3 & _).
  destruct (set_column_shape _ c1 df I1 L1) as [C1 _].
  destruct (set_column_shape _ c2 _ I2 L2) as [C2 _].
  repeat constructor; congruence.
Qed.

(** X11: the columns [normalizar_precios] does not compute pass through:
    every column with another label has the cells it had. *)
Theorem other_columns_pass_through (df out : DataFrame) (name : text) :
  normalizar_precios df = Ok out ->
  name ∉ price_columns ->
  get_column name out = get_column name df.
Proof.
  intros Hok Hname.
  destruct (normalizar_precios_steps df out Hok)
    as (c1 & c2 & c3 & _ & _ & _ & -> & I1 & L1 & I2 & L2 & I3 & L3).
  assert (name <> u "precio_inmueble" /\ name <> u "price"
          /\ name <> u "precio_m2") as (N1 & N2 & N3).
  { repeat split; intros ->; apply Hname; unfold price_columns;
      repeat (first [by left | right]). }
  rewrite get_set_other by done. rewrite get_set_other by done.
  by rewrite get_set_other.
Qed.

(** X12: every [precio_inmueble] the normaliser produces is an integer
    from 0 to 2^63 - 1; a longer run of digits is an [OverflowError], not a
    wrapped number. *)
Theorem precio_inmueble_in_int64 (df : DataFrame) (col : list value) :
  precio_inmueble_column df = Ok col ->
  Forall (fun v => exists z, v = VInt z /\ 0 <= z <= int64_max) col.
Proof.
  unfold precio_inmueble_column.
  destruct (get_column _ df) as [g|]; [|done]. cbn [bind].
  destruct (str_accessor g) as [g'|]; [|done]. cbn [bind].
  intros Hm. apply Forall_forall. intros v Hv.
  destruct (mapM_elem _ _ _ _ Hm Hv) as (x & _ & Hx).
  unfold cell_int64 in Hx.
  destruct (cell_extract _ _) as [| | | |w| | |]; try done.
  destruct (int_of_digits w) as [z|] eqn:Hz; [|done].
  destruct (z <=? int64_max) eqn:Hle; [|done].
  injection Hx as <-. exists z. split; [done|].
  apply int_of_digits_nonneg in Hz. lia.
Qed.

Lemma decimal_value_nonneg (w : text) (acc : Z) (q : Q) :
  0 <= acc -> decimal_value acc w = Some q -> (0 <= q)%Q.
Proof.
  revert acc. induction w as [|c w IH]; intros acc Hacc; simpl.
  - intros [= <-]. unfold Qle. simpl. lia.
  - destruct (c =? 46)%N.
    + destruct w as [|c' w].
      * intros [= <-]. unfold Qle. simpl. lia.
      * destruct (digits_value acc (c' :: w)) as [m|] eqn:Hm; [|done].
        intros [= <-]. apply digits_value_nonneg in Hm; [|done].
        unfold Qle. simpl. lia.
    + destruct (decimal_digit c) as [d|]; [|done]. apply IH. lia.
Qed.

(** X13: every [precio_m2] the normaliser produces is NaN or a number that
    is not negative. *)
Theorem precio_m2_not_negative (df : DataFrame) (col : list value) :
  precio_m2_column df = Ok col ->
  Forall (fun v => v = nan \/ exists q, v = VFloat (FNum q) /\ (0 <= q)%Q) col.
Proof.
  unfold precio_m2_column.
  destruct (get_column _ df) as [g|]; [|done]. cbn [bind].
  destruct (str_accessor g) as [g'|]; [|done]. cbn [bind].
  intros Hm. apply Forall_forall. intros v Hv.
  destruct (mapM_elem _ _ _ _ Hm Hv) as (x & _ & Hx).
  unfold cell_float64 in Hx.
  destruct (cell_extract _ _) as [| | | |w| | |] eqn:Hc;
    try (injection Hx as <-; by left).
  destruct (decimal_value 0 w) as [q|] eqn:Hq; [|done].
  injection Hx as <-. right. exists q. split; [done|].
  by apply (decimal_value_nonneg w 0).
Qed.

End MorePriceFacts.

Section MorePriceExamples.
#[local] Existing Instance Latin1.latin1.

Lemma precio_inmueble_missing_witness :
  (u "precio_inmueble" ∉ columns raw_listing)
  /\ normalizar_precios raw_listing = Err (KeyError (u "precio_inmueble")).
Proof.
  assert (H : u "precio_inmueble" ∉ columns raw_listing).
  { apply (bool_decide_unpack _). vm_compute. exact I. }
  split; [exact H | exact (precio_inmueble_missing raw_listing H)].
Defined.

Lemma normalizar_precios_ok :
  exists out, normalizar_precios priced_listing = Ok out.
Proof. eexists. vm_compute. reflexivity. Defined.

Lemma normalizar_precios_shape_witness :
  exists out,
    normalizar_precios priced_listing = Ok out
    /\ columns out = columns priced_listing
    /\ length (rows out) = length (rows priced_listing).
Proof.
  destruct normalizar_precios_ok as [out Hout]. exists out.
  split; [exact Hout|].
  exact (proj2 (normalizar_precios_shape priced_listing out Hout)).
Defined.

Lemma other_columns_pass_through_witness :
  exists out,
    normalizar_precios priced_listing = Ok out
    /\ (u "title" ∉ price_columns)
    /\ get_column (u "title") out = get_column (u "title") priced_listing.
Proof.
  destruct normalizar_precios_ok as [out Hout]. exists out.
  assert (H : u "title" ∉ price_columns).
  { apply (bool_decide_unpack _). vm_compute. exact I. }
  split; [exact Hout|]. split; [exact H|].
  exact (other_columns_pass_through priced_listing out (u "title") Hout H).
Defined.

Lemma precio_inmueble_in_int64_witness :
  exists col,
    precio_inmueble_column priced_listing = Ok col
    /\ Forall (fun v => exists z, v = VInt z /\ 0 <= z <= int64_max) col.
Proof.
  assert (H : precio_inmueble_column priced_listing = Ok [VInt 150000])
    by (vm_compute; reflexivity).
  eexists. split; [exact H|].
  exact (precio_inmueble_in_int64 priced_listing _ H).
Defined.

Lemma precio_m2_not_negative_witness :
  exists col,
    precio_m2_column priced_listing = Ok col
    /\ Forall (fun v => v = nan
                       \/ exists q, v = VFloat (FNum q) /\ (0 <= q)%Q) col.
Proof.
  assert (H : precio_m2_column priced_listing
              = Ok [VFloat (FNum (1667 # 1000))])
    by (vm_compute; reflexivity).
  eexists. split; [exact H|].
  exact (precio_m2_not_negative priced_listing _ H).
Defined.
End MorePriceExamples.

(** ** The assembled batch *)

Lemma rename_columns_labels (df : DataFrame) :
  columns (rename_columns price_headers df)
  = map canonical_label (columns df)
  /\ rows (rename_columns price_headers df) = rows df.
Proof.
  split; [|done]. unfold rename_columns. simpl. apply map_ext. intros c.
  unfold canonical_label. by repeat (destruct (text_eqb c _); simpl).
Qed.

Lemma apply_expand_shape (f : value -> result dict) (name : text)
    (col : list value) (keys : list text) (fr : DataFrame) :
  (forall x d, f x = Ok d -> map fst d = keys) ->
  col <> [] ->
  apply_expand f name col = Ok fr ->
  columns fr = keys /\ length (rows fr) = length col.
Proof.
  intros Hkeys Hne. unfold apply_expand. destruct col as [|x col]; [done|].
  destruct (mapM f (x :: col)) as [ds|] eqn:Hm; [|done]. cbn [bind].
  intros [= <-]. simpl. rewrite length_map, (mapM_length _ _ _ Hm).
  split; [|done]. simpl in Hm. destruct (f x) as [d|] eqn:Hx; [|done].
  simpl in Hm. destruct (mapM f col); [|done]. injection Hm as <-.
  by apply (Hkeys x).
Qed.

Lemma drop_columns_shape (names : list text) (df out : DataFrame) :
  drop_columns names df = Ok out ->
  columns out
  = List.filter (fun c => negb (bool_decide (c ∈ names))) (columns df)
  /\ length (rows out) = length (rows df).
Proof.
  unfold drop_columns. destruct (List.find _ names); [done|].
  intros [= <-]. simpl. by rewrite length_map.
Qed.

Section MoreFrameFacts.
Context `{R : PyRuntime}.

Lemma info_features_of_keys (x : value) (d : dict) :
  info_features_of x = Ok d -> map fst d = take 5 extracted_columns.
Proof.
  unfold info_features_of. destruct (str_list x); [|done]. cbn [bind].
  destruct (extract_info_features _); [|done]. by intros [= <-].
Qed.

Lemma certificado_keys (x : value) (d : dict) :
  extract_certificado_energetico x = Ok d ->
  map fst d = take 4 (drop 5 extracted_columns).
Proof.
  unfold extract_certificado_energetico.
  destruct (filter_energy_data x); [|done]. cbn [bind].
  destruct (energy_loop _ _ _); [|done]. by intros [= <-].
Qed.

Lemma caracteristicas_basicas_of_keys (x : value) (d : dict) :
  caracteristicas_basicas_of x = Ok d -> map fst d = drop 9 extracted_columns.
Proof.
  unfold caracteristicas_basicas_of. destruct (str_list x); [|done].
  cbn [bind]. destruct (extract_caracteristicas_basicas _); [|done].
  by intros [= <-].
Qed.

Lemma normalized_batch_shape (d out : DataFrame) :
  rows d <> [] ->
  normalized_batch d = Ok out ->
  columns out
  = map canonical_label
      (List.filter (fun c => negb (bool_decide (c ∈ raw_columns))) (columns d))
    ++ extracted_columns
  /\ length (rows out) = length (rows d).
Proof.
  intros Hne. unfold normalized_batch.
  destruct (get_column (u "info_features") d) as [c1|] eqn:G1; [|done].
  cbn [bind].
  destruct (apply_expand info_features_of _ c1) as [f1|] eqn:A1; [|done].
  cbn [bind].
  destruct (get_column (u "certificado_energetico") d) as [c2|] eqn:G2;
    [|done].
  cbn [bind].
  destruct (apply_expand extract_certificado_energetico _ c2) as [f2|] eqn:A2;
    [|done].
  cbn [bind].
  destruct (get_column (u "caracteristicas_basicas") d) as [c3|] eqn:G3;
    [|done].
  cbn [bind].
  destruct (apply_expand caracteristicas_basicas_of _ c3) as [f3|] eqn:A3;
    [|done].
  cbn [bind].
  destruct (drop_columns raw_columns d) as [d0|] eqn:D0; [|done].
  cbn [bind]. intros Hnp.
  apply get_column_Ok in G1 as [_ L1], G2 as [_ L2], G3 as [_ L3].
  assert (forall c : list value, length c = length (rows d) -> c <> [])
    as Hnonempty.
  { intros c Hc ->. destruct (rows d); done. }
  apply (apply_expand_shape _ _ _ _ _ info_features_of_keys) in A1
    as [K1 R1]; [|by apply Hnonempty].
  apply (apply_expand_shape _ _ _ _ _ certificado_keys) in A2
    as [K2 R2]; [|by apply Hnonempty].
  apply (apply_expand_shape _ _ _ _ _ caracteristicas_basicas_of_keys) in A3
    as [K3 R3]; [|by apply Hnonempty].
  apply drop_columns_shape in D0 as [K0 R0].
  apply normalizar_precios_labels_rows in Hnp as [-> ->].
  destruct (rename_columns_labels (foldl concat_columns d0 [f1; f2; f3]))
    as [-> ->].
  cbn [foldl concat_columns columns rows].
  rewrite K0, K1, K2, K3. split.
  - rewrite <- !app_assoc, map_app.
    assert (map canonical_label
              (take 5 extracted_columns ++ take 4 (drop 5 extracted_columns)
               ++ drop 9 extracted_columns) = extracted_columns) as Hk
      by (vm_compute; reflexivity).
    by rewrite Hk.
  - rewrite !length_zip_with. lia.
Qed.

(** X14: without a column [info_features] the call raises [KeyError] for
    that label before anything is built: the heap is as it was. *)
Theorem info_features_missing (self : NormalizarDataFrame) (h : heap)
    (d : DataFrame) :
  h !! dataframe self = Some d ->
  u "info_features" ∉ columns d ->
  normalize_dataframe self h = (Err (KeyError (u "info_features")), h).
Proof.
  intros Hd Hno. apply col_index_None in Hno.
  unfold normalize_dataframe, df_getitem, bindM, load, lift, get_column.
  by rewrite Hd, Hno.
Qed.

(** X15: when [normalize_dataframe] returns for a batch with at least one
    row, the frame it returns has one row per row of the batch, and its
    columns are those of the batch without the three composite columns,
    the two price headers under their new names, followed by the 26
    columns of the extractors. *)
Theorem normalized_schema (self : NormalizarDataFrame) (h : heap)
    (d : DataFrame) (l : ref) :
  h !! dataframe self = Some d ->
  rows d <> [] ->
  (normalize_dataframe self h).1 = Ok l ->
  exists out,
    (normalize_dataframe self h).2 !! l = Some out
    /\ columns out
       = map canonical_label
           (List.filter (fun c => negb (bool_decide (c ∈ raw_columns)))
                        (columns d))
         ++ extracted_columns
    /\ length (rows out) = length (rows d).
Proof.
  intros Hd Hne Hl.
  destruct (normalize_dataframe_run self h d Hd) as (ext & Hh & Hobs).
  rewrite Hh, Hl in *. simpl in Hobs.
  destruct ((h ++ ext) !! l) as [out|]; [|done].
  injection Hobs as Hout. exists out. split; [done|].
  by apply normalized_batch_shape.
Qed.

End MoreFrameFacts.

Lemma info_features_missing_witness :
  [priced_listing] !! dataframe {| dataframe := 0 |} = Some priced_listing
  /\ (u "info_features" ∉ columns priced_listing)
  /\ normalize_dataframe (H := Latin1.latin1) {| dataframe := 0 |}
       [priced_listing]
     = (Err (KeyError (u "info_features")), [priced_listing]).
Proof.
  assert (H : u "info_features" ∉ columns priced_listing).
  { apply (bool_decide_unpack _). vm_compute. exact I. }
  split; [reflexivity|]. split; [exact H|].
  exact (info_features_missing (R := Latin1.latin1) {| dataframe := 0 |}
           [priced_listing] priced_listing eq_refl H).
Defined.

Lemma normalized_schema_witness :
  exists out,
    (normalize_dataframe (H := Latin1.latin1) {| dataframe := 0 |}
       [raw_listing]).2 !! 6%nat = Some out
    /\ columns out
       = [u "title"; u "price"; u "precio_inmueble"; u "precio_m2"]
         ++ extracted_columns
    /\ length (rows out) = 1%nat.
Proof.
  assert (Hne : rows raw_listing <> []) by done.
  exact (normalized_schema (R := Latin1.latin1) {| dataframe := 0 |}
           [raw_listing] raw_listing 6%nat eq_refl Hne eq_refl).
Defined.

Section MoreFacts2.
Context `{R : PyRuntime}.

Lemma mapM_Err_elem {A B} (f : A -> result B) (l : list A) (e : py_error) :
  mapM f l = Err e -> exists x, x ∈ l /\ f x = Err e.
Proof.
  induction l as [|y l IH]; simpl; [done|].
  destruct (f y) as [b|e'] eqn:Hy; simpl.
  - destruct (mapM f l) as [ys|e1]; simpl; [done|].
    intros [= ->]. destruct (IH eq_refl) as (x & Hx & He).
    exists x. split; [by right | done].
  - intros [= ->]. exists y. split; [by left | done].
Qed.

Lemma str_list_errors (x : value) (e : py_error) :
  str_list x = Err e -> e = TypeError.
Proof.
  unfold str_list. destruct (py_iter x) as [items|e'] eqn:Hi; cbn [bind].
  - intros Hm. apply mapM_Err_elem in Hm as (y & _ & Hy).
    destruct y; congruence.
  - intros [= <-]. destruct x; simpl in Hi; congruence.
Qed.

Lemma info_features_of_errors (x : value) (e : py_error) :
  info_features_of x = Err e ->
  e = TypeError \/ (e = ValueError /\ (0 < int_max_str_digits)%nat).
Proof.
  unfold info_features_of. destruct (str_list x) as [l|e'] eqn:Hl.
  - cbn [bind].
    destruct (extract_info_features_cases l) as [(r & -> & _) | [-> Hc]];
      [done|].
    cbn [bind]. intros [= <-]. right. split; [done|].
    unfold exceeds_cap in Hc. apply andb_true_iff in Hc as [Hc _].
    by apply Nat.ltb_lt in Hc.
  - cbn [bind]. intros [= <-]. left. by apply str_list_errors in Hl.
Qed.

(** X21: one row whose [info_features] cell is not a sequence of strings
    (a missing value, for one) makes the call fail for the whole batch,
    before anything is built: with [TypeError], or with the [ValueError]
    of [int] when a row holds a numeral beyond its limit, which a limit of
    0 (none) rules out. *)
Theorem info_features_not_a_list (self : NormalizarDataFrame) (h : heap)
    (d : DataFrame) (col : list value) (x : value) (e : py_error) :
  h !! dataframe self = Some d ->
  get_column (u "info_features") d = Ok col ->
  x ∈ col ->
  str_list x = Err e ->
  exists e',
    normalize_dataframe self h = (Err e', h)
    /\ (e' = TypeError \/ (e' = ValueError /\ (0 < int_max_str_digits)%nat)).
Proof.
  intros Hd Hcol Hx He.
  unfold normalize_dataframe, df_getitem, series_apply, bindM, load, lift.
  rewrite Hd, Hcol. unfold apply_expand.
  destruct col as [|y col]; [by apply elem_of_nil in Hx|].
  destruct (mapM_raises info_features_of (y :: col)
              (fun e => e = TypeError
                        \/ (e = ValueError /\ (0 < int_max_str_digits)%nat)))
    as (e1 & -> & He1).
  - apply info_features_of_errors.
  - exists x, e. split; [done|]. unfold info_features_of. by rewrite He.
  - by exists e1.
Qed.

Lemma lstrip_suffix (s : text) : exists pre, s = pre ++ lstrip s.
Proof.
  induction s as [|c s [pre IH]]; simpl; [by exists []|].
  destruct (is_space c); [|by exists []].
  exists (c :: pre). simpl. by f_equal.
Qed.

Lemma lstrip_head (s : text) (c : N) :
  head (lstrip s) = Some c -> is_space c = false.
Proof.
  induction s as [|x s IH]; simpl; [done|].
  destruct (is_space x) eqn:Hx; [done|]. by intros [= <-].
Qed.

Lemma last_rev_head (l : text) : last (rev l) = head l.
Proof. destruct l as [|x l]; [done|]. simpl. apply last_snoc. Qed.

Lemma head_rev_last (l : text) : head (rev l) = last l.
Proof. by rewrite <- (rev_involutive l) at 2; rewrite last_rev_head. Qed.

Lemma str_strip_trimmed (w : text) (c : N) :
  head (str_strip w) = Some c \/ last (str_strip w) = Some c ->
  is_space c = false.
Proof.
  unfold str_strip. set (a := lstrip w). set (b := lstrip (rev a)).
  intros [Hh | Hl].
  - destruct (lstrip_suffix (rev a)) as [pre Hpre]. fold b in Hpre.
    rewrite head_rev_last in Hh.
    assert (last (rev a) = Some c) as Hla.
    { rewrite Hpre. apply last_app_Some. by left. }
    rewrite last_rev_head in Hla. by apply (lstrip_head w).
  - rewrite last_rev_head in Hl. by apply (lstrip_head (rev a)).
Qed.

(** X22: whenever [extract_caracteristicas_basicas] returns, the heating
    text, when there is one, is trimmed: it neither starts nor ends with
    white space.  It fails to return on a list of strings only with the
    [ValueError] of [int] on a numeral beyond its limit. *)
Theorem calefaccion_trimmed (l : list text) :
  match extract_caracteristicas_basicas l with
  | Ok r =>
      forall w c, calefaccion r = Some w ->
        head w = Some c \/ last w = Some c -> is_space c = false
  | Err e =>
      e = ValueError
      /\ exceeds_cap (length (str_lower (str_join (u " ") l))) = true
  end.
Proof.
  destruct (extract_caracteristicas_basicas_cases l)
    as [(r & -> & _ & _ & Ho) | [-> Hc]]; [|done].
  intros w c Hw Hc. rewrite Hw in Ho. unfold strip_group in Ho.
  destruct (search Basicas.calefaccion_pattern _) as [[w'|]|]; try done.
  injection Ho as <-. by apply (str_strip_trimmed w').
Qed.

Lemma star_digits_greedy {A} (ds post : text) (fuel : nat) g (k : K A) v :
  all_digits ds ->
  (forall c, head post = Some c -> is_digit c = false) ->
  (length ds <= fuel)%nat ->
  k post g = Some v ->
  star (run digit) fuel (ds ++ post) g k = Some v.
Proof.
  intros Hds Hpost. revert fuel.
  induction Hds as [|c ds Hc _ IH]; intros fuel Hfuel Hk.
  - destruct fuel as [|fuel]; simpl; [done|].
    destruct post as [|c post]; [by rewrite Hk|].
    by rewrite (Hpost c eq_refl), Hk.
  - destruct fuel as [|fuel]; [simpl in Hfuel; lia|].
    simpl. rewrite Hc.
    rewrite (proj2 (Nat.ltb_lt _ _)) by lia.
    rewrite IH; [done | simpl in Hfuel; lia | done].
Qed.

Lemma search_first_digits (pre ds post : text) :
  Forall (fun c => is_digit c = false) pre ->
  ds <> [] -> all_digits ds ->
  (forall c, head post = Some c -> is_digit c = false) ->
  search precio_inmueble_pattern (pre ++ ds ++ post) = Some (Some ds).
Proof.
  intros Hpre Hne Hds Hpost. induction Hpre as [|x pre Hx _ IH].
  - destruct ds as [|c ds]; [done|]. inversion Hds as [|? ? Hc Hds']; subst.
    cbn [app search]. unfold match_here, precio_inmueble_pattern.
    rewrite run_group, run_plus_digit, Hc.
    rewrite (star_digits_greedy ds post _ _ _ (Some (c :: ds)));
      [done|done|done| |].
    + rewrite length_app. lia.
    + do 2 f_equal. cbn [length].
      replace (S (length (ds ++ post)) - length post)%nat
        with (length (c :: ds)) by (rewrite length_app; simpl; lia).
      apply (take_app_length (c :: ds) post).
  - cbn [app search].
    destruct (match_here precio_inmueble_pattern (x :: pre ++ ds ++ post))
      as [m|] eqn:Hm; [|done].
    assert (is_Some (match_here precio_inmueble_pattern
                       (x :: pre ++ ds ++ post))) as Hs by eauto.
    apply price_pattern_here in Hs as (c & s' & [= <- <-] & Hc); [|by left].
    congruence.
Qed.

(** X23: [precio_inmueble] is read from the first run of digits of the text
    without its full stops, whatever stands before and after: the run as
    an integer, a [ValueError] when the run has more digits than [int]
    reads, or else an [OverflowError] when the integer does not fit in 64
    bits. *)
Theorem precio_inmueble_first_run (s pre ds post : text) :
  str_replace (u ".") (u "") s = pre ++ ds ++ post ->
  Forall (fun c => is_digit c = false) pre ->
  ds <> [] -> all_digits ds ->
  (forall c, head post = Some c -> is_digit c = false) ->
  exists z,
    digits_value 0 ds = Some z /\
    cell_int64 (cell_extract precio_inmueble_pattern
                  (cell_replace (u ".") (u "") (VStr s)))
    = if exceeds_cap (length ds) then Err ValueError
      else if z <=? int64_max then Ok (VInt z)
      else Err OverflowError.
Proof.
  intros Hs Hpre Hne Hds Hpost.
  destruct (digits_value_total ds 0 Hds) as [z Hz].
  exists z. split; [done|]. cbn [cell_replace cell_extract]. rewrite Hs.
  rewrite search_first_digits by done. cbn [cell_int64].
  unfold int_of_digits. destruct ds as [|c ds]; [done|].
  destruct (exceeds_cap (length (c :: ds))); [done|]. by rewrite Hz.
Qed.
End MoreFacts2.

Lemma info_features_not_a_list_witness :
  let d := {| columns := [u "info_features"];
              rows := [[VList [VStr (u "90 m²")]]; [nan]] |} in
  exists e',
    normalize_dataframe (H := Latin1.latin1) {| dataframe := 0 |} [d]
    = (Err e', [d])
    /\ (e' = TypeError
        \/ (e' = ValueError
            /\ (0 < int_max_str_digits (PyRuntime := Latin1.latin1))%nat)).
Proof.
  intros d.
  apply (info_features_not_a_list (R := Latin1.latin1) {| dataframe := 0 |}
           [d] d [VList [VStr (u "90 m²")]; nan] nan TypeError).
  - reflexivity.
  - reflexivity.
  - right. left.
  - reflexivity.
Defined.

Lemma precio_inmueble_first_run_witness :
  exists z,
    digits_value (H := Latin1.latin1) 0 (u "1250000") = Some z /\
    cell_int64 (H := Latin1.latin1)
      (cell_extract (H := Latin1.latin1) precio_inmueble_pattern
         (cell_replace (u ".") (u "") (VStr (u "Desde 1.250.000 €"))))
    = if exceeds_cap (H := Latin1.latin1) (length (u "1250000"))
      then Err ValueError
      else if z <=? int64_max then Ok (VInt z)
      else Err OverflowError.
Proof.
  apply (precio_inmueble_first_run (R := Latin1.latin1)
           (u "Desde 1.250.000 €") (u "Desde ") (u "1250000") (u " €")).
  - reflexivity.
  - repeat constructor.
  - done.
  - repeat constructor.
  - intros c [= <-]. reflexivity.
Defined.

(** ** The store, further *)

Lemma contains_suffix (w s : text) : contains w (s ++ w) = true.
Proof. apply contains_spec. exists s, []. by rewrite app_nil_r. Qed.

Lemma starts_with_app (w s t : text) :
  starts_with w s = true -> starts_with w (s ++ t) = true.
Proof.
  rewrite !starts_with_spec. intros [post ->]. exists (post ++ t).
  by rewrite app_assoc.
Qed.

(** X18: the name the store settles on always holds ".parquet", and
    settling it again changes nothing. *)
Theorem parquet_name_idempotent (name : text) :
  contains (u ".parquet") (parquet_name name) = true
  /\ parquet_name (parquet_name name) = parquet_name name.
Proof.
  assert (contains (u ".parquet") (parquet_name name) = true) as Hc.
  { unfold parquet_name.
    destruct (contains (u ".parquet") name) eqn:Hn; simpl; [done|].
    apply contains_suffix. }
  split; [done|]. unfold parquet_name at 1. by rewrite Hc.
Qed.

Section MoreStoreFacts.
Context `{S : Storage}.

(** X16: a save that succeeds leaves a frame at the target path and changes
    no other file. *)
Theorem save_touches_one_path (df : DataFrame) (dest name : text)
    (replace : bool) (fs fs' : files) :
  save_df_to_parquet df dest name replace fs = Ok fs' ->
  is_Some (fs' !! os_path_join dest (parquet_name name))
  /\ forall q, q <> os_path_join dest (parquet_name name) ->
       fs' !! q = fs !! q.
Proof.
  unfold save_df_to_parquet, os_makedirs, to_parquet.
  set (p := os_path_join dest (parquet_name name)).
  assert (forall x (g : files), is_Some (<[p := x]> g !! p)
            /\ forall q, q <> p -> <[p := x]> g !! q = g !! q) as Hins.
  { intros x g. rewrite lookup_insert_eq. split; [eauto|].
    intros q Hq. by rewrite lookup_insert_ne. }
  destruct (os_path_exists p fs).
  - destruct replace.
    + destruct (read_parquet p fs) as [old|]; [|done]. cbn [bind].
      destruct (concat_rows old df) as [new|]; [|done]. cbn [bind].
      destruct (write_error p new); [done|]. intros [= <-]. apply Hins.
    + destruct (write_error p df); [done|]. intros [= <-]. apply Hins.
  - destruct (makedirs_error dest); [done|]. cbn [bind].
    destruct (write_error p df); [done|]. intros [= <-]. apply Hins.
Qed.

(** X20: saving with [replace] false is idempotent: once a save has
    succeeded, the same save again succeeds and leaves the files as they
    are. *)
Theorem overwrite_twice (df : DataFrame) (dest name : text)
    (fs fs1 : files) :
  save_df_to_parquet df dest name false fs = Ok fs1 ->
  save_df_to_parquet df dest name false fs1 = Ok fs1.
Proof.
  intros Hfirst.
  set (p := os_path_join dest (parquet_name name)).
  assert (write_error p df = None /\ fs1 = <[p := df]> fs) as [Hw ->].
  { revert Hfirst.
    unfold save_df_to_parquet, os_makedirs, to_parquet. fold p.
    destruct (os_path_exists p fs).
    - destruct (write_error p df); [done|]. by intros [= <-].
    - destruct (makedirs_error dest); [done|]. cbn [bind].
      destruct (write_error p df); [done|]. by intros [= <-]. }
  unfold save_df_to_parquet, os_path_exists, to_parquet. fold p.
  rewrite bool_decide_eq_true_2 by (rewrite lookup_insert_eq; eauto).
  by rewrite Hw, insert_insert_eq.
Qed.

(** X19: a name that starts with "/" is an absolute path: the frame is
    written at that path, whatever the destination directory (which is
    made all the same). *)
Theorem absolute_name_ignores_dest (df : DataFrame) (dest name : text)
    (replace : bool) (fs : files) :
  starts_with (u "/") name = true ->
  fs !! parquet_name name = None ->
  makedirs_error dest = None ->
  write_error (parquet_name name) df = None ->
  save_df_to_parquet df dest name replace fs
  = Ok (<[parquet_name name := df]> fs).
Proof.
  intros Habs Hfresh Hmk Hw.
  assert (os_path_join dest (parquet_name name) = parquet_name name) as Hp.
  { unfold os_path_join.
    assert (starts_with (u "/") (parquet_name name) = true) as ->; [|done].
    unfold parquet_name. destruct (negb _); [|done].
    by apply starts_with_app. }
  unfold save_df_to_parquet, os_path_exists, os_makedirs, to_parquet.
  rewrite Hp, Hfresh, Hmk, Hw.
  by rewrite bool_decide_eq_false_2 by (intros [? ?]; done).
Qed.

Lemma save_all_appends (batches : list DataFrame) (dest name : text)
    (cols : list text) (rs : list (list value)) (fs : files) :
  let p := os_path_join dest (parquet_name name) in
  read_error p = None ->
  (forall df, write_error p df = None) ->
  Forall (fun b => columns b = cols) batches ->
  fs !! p = Some {| columns := cols; rows := rs |} ->
  exists fs',
    save_all batches dest name fs = Ok fs'
    /\ fs' !! p
       = Some {| columns := cols; rows := rs ++ concat (map rows batches) |}.
Proof.
  intros p Hrd Hwr Hcols. revert rs fs.
  induction Hcols as [|b batches Hb _ IH]; intros rs fs Hfs; simpl.
  - exists fs. by rewrite app_nil_r.
  - unfold save_df_to_parquet, os_path_exists, read_parquet, to_parquet.
    fold p. rewrite Hfs, Hrd.
    rewrite bool_decide_eq_true_2 by eauto. cbn [bind].
    unfold concat_rows. cbn [columns rows].
    rewrite bool_decide_eq_true_2 by done. cbn [bind]. rewrite Hwr.
    cbn [bind].
    destruct (IH (rs ++ rows b) (<[p := {| columns := cols;
                                           rows := rs ++ rows b |}]> fs))
      as (fs' & Hsave & Hfile); [by rewrite lookup_insert_eq|].
    exists fs'. split; [done|]. by rewrite Hfile, <- app_assoc.
Qed.

(** X17: batches with the same columns, saved one after the other under a
    fresh name with [replace] true on a storage that does not fail at the
    path, pile up: the file ends as their rows, batch after batch in the
    order of the saves. *)
Theorem save_all_accumulates (b : DataFrame) (batches : list DataFrame)
    (dest name : text) (fs : files) :
  let p := os_path_join dest (parquet_name name) in
  fs !! p = None ->
  makedirs_error dest = None ->
  read_error p = None ->
  (forall df, write_error p df = None) ->
  Forall (fun b' => columns b' = columns b) batches ->
  exists fs',
    save_all (b :: batches) dest name fs = Ok fs'
    /\ fs' !! p
       = Some {| columns := columns b;
                 rows := concat (map rows (b :: batches)) |}.
Proof.
  intros p Hfresh Hmk Hrd Hwr Hcols. cbn [save_all].
  unfold save_df_to_parquet, os_path_exists, os_makedirs, to_parquet.
  fold p. rewrite Hfresh, Hmk, Hwr.
  rewrite bool_decide_eq_false_2 by (intros [? ?]; done). cbn [bind].
  destruct b as [cols rs]. cbn [columns rows] in *.
  apply (save_all_appends batches dest name cols rs); try done.
  by rewrite lookup_insert_eq.
Qed.

End MoreStoreFacts.

Section MoreStoreExamples.
#[local] Existing Instance reliable.

Lemma save_touches_one_path_witness :
  let df := frame1 [u "title"] [VStr (u "a")] in
  exists fs',
    save_df_to_parquet df (u "out") (u "pisos") false ∅ = Ok fs'
    /\ is_Some (fs' !! u "out/pisos.parquet")
    /\ forall q, q <> u "out/pisos.parquet" -> fs' !! q = (∅ : files) !! q.
Proof.
  intros df.
  assert (H : save_df_to_parquet df (u "out") (u "pisos") false ∅
              = Ok (<[u "out/pisos.parquet" := df]> ∅)) by reflexivity.
  eexists. split; [exact H|].
  exact (save_touches_one_path df (u "out") (u "pisos") false ∅ _ H).
Defined.

Lemma overwrite_twice_witness :
  let df := frame1 [u "title"] [VStr (u "a")] in
  exists fs1,
    save_df_to_parquet df (u "out") (u "pisos") false ∅ = Ok fs1
    /\ save_df_to_parquet df (u "out") (u "pisos") false fs1 = Ok fs1.
Proof.
  intros df.
  assert (H : save_df_to_parquet df (u "out") (u "pisos") false ∅
              = Ok (<[u "out/pisos.parquet" := df]> ∅)) by reflexivity.
  eexists. split; [exact H|].
  exact (overwrite_twice df (u "out") (u "pisos") ∅ _ H).
Defined.

Lemma absolute_name_ignores_dest_witness :
  let df := frame1 [u "title"] [VStr (u "a")] in
  save_df_to_parquet df (u "out") (u "/tmp/pisos") true ∅
  = Ok (<[u "/tmp/pisos.parquet" := df]> ∅).
Proof.
  intros df.
  exact (absolute_name_ignores_dest df (u "out") (u "/tmp/pisos") true ∅
           eq_refl eq_refl eq_refl eq_refl).
Defined.

Lemma save_all_accumulates_witness :
  let a := frame1 [u "title"] [VStr (u "a")] in
  let b := frame1 [u "title"] [VStr (u "b")] in
  exists fs',
    save_all [a; b] (u "out") (u "pisos") ∅ = Ok fs'
    /\ fs' !! u "out/pisos.parquet"
       = Some {| columns := [u "title"];
                 rows := [[VStr (u "a")]; [VStr (u "b")]] |}.
Proof.
  intros a b.
  apply (save_all_accumulates a [b] (u "out") (u "pisos") ∅);
    try reflexivity.
  repeat constructor.
Defined.
End MoreStoreExamples.
